(** * Hostsfile lookups and refresh: a shallow embedding of
      [hostsfile/hostsfile.go] (package [hosts]) and the properties of
      its lookup and refresh paths. *)

From Stdlib Require Import List String Ascii Strings.Byte ZArith NArith Bool Arith Lia.
From Stdlib Require Import DecimalString.
Import ListNotations.

Local Open Scope string_scope.
Local Open Scope list_scope.

(** String concatenation (Go's [+] on strings), kept apart from the
    list append [++]. *)
Infix "+:+" := String.append (at level 60, right associativity).

(** ** Go's [strings] helpers used by the package *)

Module GoStrings.

(** [strings.HasSuffix]:
    [len(s) >= len(suffix) && s[len(s)-len(suffix):] == suffix]. *)
Definition HasSuffix (s suffix : string) : bool :=
  (String.length suffix <=? String.length s)%nat
  && String.eqb
       (substring (String.length s - String.length suffix)
                  (String.length suffix) s)
       suffix.

(** [strings.TrimSuffix]: [s[:len(s)-len(suffix)]] when [s] has the
    suffix, [s] itself otherwise.  At most one copy is removed. *)
Definition TrimSuffix (s suffix : string) : string :=
  if HasSuffix s suffix
  then substring 0 (String.length s - String.length suffix) s
  else s.

(** ASCII branch of [strings.ToLower]: a byte in ['A'..'Z'] is moved by
    ['a' - 'A'], every other byte is kept. *)
Definition lower_byte (c : ascii) : ascii :=
  let n := nat_of_ascii c in
  if ((65 <=? n) && (n <=? 90))%nat then ascii_of_nat (n + 32) else c.

Fixpoint ToLower (s : string) : string :=
  match s with
  | EmptyString => EmptyString
  | String c rest => String (lower_byte c) (ToLower rest)
  end.

End GoStrings.
Import GoStrings.

(** ** Data model *)

(** [net.IP] is a byte slice (4 bytes for IPv4, 16 for IPv6). *)
Definition IP : Type := list byte.

(** A Go [error] value; [None] is [nil]. *)
Definition error : Type := option string.

(** Modelled from the spec: the element type of [hostlist] is declared in
    another file of the package; the code here reads its fields [domain]
    and [ip] only. *)
Record hostname : Type := mkHostname {
  domain : string;
  ip     : IP
}.

(** Modelled from the spec: [hostlist] is the ordered sequence of entries
    that [range *h.hosts] walks, in file order. *)
Definition hostlist : Type := list hostname.

(** [Config]: [Poll] is a Go [int], [Verbose] a [bool]. *)
Record Config : Type := mkConfig {
  Poll    : Z;
  Verbose : bool
}.

(** [time.Time] reduced to the instant it denotes (what [Time.Equal]
    compares); the zero value [time.Time{}] is instant [0]. *)
Definition Time : Type := Z.
Definition zero_time : Time := 0%Z.
Definition Time_Equal (t u : Time) : bool := Z.eqb t u.

(** The anonymous struct of field [file]. *)
Record FileInfo : Type := mkFileInfo {
  size  : Z;
  path  : string;
  mtime : Time
}.

Definition zero_file : FileInfo := mkFileInfo 0%Z "" zero_time.

(** [Hostsfile]; [config] is a pointer and may be [nil] ([None]).
    [hosts] points to the table and is written here as the table: it is
    [nil] only inside [NewHostsfile], before the first assignment.  The
    mutex carries no data and is modelled separately, with the threads
    that take it. *)
Record Hostsfile : Type := mkHostsfile {
  config : option Config;
  hosts  : hostlist;
  file   : FileInfo
}.

(** Outcome of a call that may stop the goroutine with a run-time panic
    (here: a [nil] [config] dereference). *)
Inductive Outcome (A : Type) : Type :=
| Done (a : A)
| Panic (reason : string).
Arguments Done {A} a.
Arguments Panic {A} reason.

(** ** The file system, as seen by one call *)

(** What [os.Stat] and [ioutil.ReadFile] answer for each path at the
    moment of the call.  The two are independent: the file may change
    between the stat and the read of one tick. *)
Record World : Type := mkWorld {
  stat_of : string -> (Time * Z) + string;
  read_of : string -> list byte + string
}.

(** [ioutil.ReadFile]. *)
Definition ReadFile (w : World) (p : string) : list byte * error :=
  match read_of w p with
  | inl data => (data, None)
  | inr e => ([], Some e)
  end.

(** Modelled from the spec: [hostsFileMetadata] is declared in another
    file of the package; it stats the file for its current modification
    time and size, or fails. *)
Definition hostsFileMetadata (w : World) (p : string) : Time * Z * error :=
  match stat_of w p with
  | inl (m, s) => (m, s, None)
  | inr e => (zero_time, 0%Z, Some e)
  end.

(** What a call does besides computing its results. *)
Inductive Event : Type :=
| EvStat (p : string)
| EvRead (p : string)
| EvParse (data : list byte)
| EvLog (msg : string).

Definition is_read (e : Event) : bool :=
  match e with EvRead _ => true | _ => false end.
Definition is_parse (e : Event) : bool :=
  match e with EvParse _ => true | _ => false end.

(** Number of file reads and of parser runs in a trace. *)
Definition reads (tr : list Event) : nat := List.length (filter is_read tr).
Definition parses (tr : list Event) : nat := List.length (filter is_parse tr).

(** ** [github.com/miekg/dns] helpers *)

(** [dns.IsFqdn]: the last byte is ".". *)
Definition IsFqdn (s : string) : bool :=
  let l := String.length s in
  if (l =? 0)%nat then false
  else match String.get (l - 1) s with
       | Some c => Ascii.eqb c "."%char
       | None => false
       end.

(** [dns.Fqdn]: [s] when it is fully qualified, [s + "."] otherwise. *)
Definition Fqdn (s : string) : string :=
  if IsFqdn s then s else s +:+ ".".

(** ** Concrete stand-ins for the code outside this file *)

(** The lookups and the loader call three functions that live elsewhere:
    [newHostlist] (another file of the package), [net.IP.String] and
    [dns.ReverseAddr].  The development is parametric in them; this
    module gives IPv4 instances so that the examples can be run. *)
Module IPv4.

Fixpoint split_on (sep : ascii) (s : string) : list string :=
  match s with
  | EmptyString => [EmptyString]
  | String c rest =>
      if Ascii.eqb c sep then EmptyString :: split_on sep rest
      else match split_on sep rest with
           | [] => [String c EmptyString]
           | x :: xs => String c x :: xs
           end
  end.

Definition digit_of (c : ascii) : option N :=
  let n := N_of_ascii c in
  if ((48 <=? n) && (n <=? 57))%N then Some (n - 48)%N else None.

Fixpoint decimal_of (acc : N) (s : string) : option N :=
  match s with
  | EmptyString => Some acc
  | String c rest =>
      match digit_of c with
      | Some d => decimal_of (10 * acc + d)%N rest
      | None => None
      end
  end.

Definition octet_of (s : string) : option byte :=
  match s with
  | EmptyString => None
  | _ =>
      if (3 <? String.length s)%nat then None
      else match decimal_of 0%N s with
           | Some n => Byte.of_N n
           | None => None
           end
  end.

(** Dotted-decimal text to the four bytes it denotes. *)
Definition parse_ipv4 (s : string) : option IP :=
  match map octet_of (split_on "."%char s) with
  | [Some a; Some b; Some c; Some d] => Some [a; b; c; d]
  | _ => None
  end.

Definition decimal (b : byte) : string :=
  NilZero.string_of_uint (N.to_uint (Byte.to_N b)).

(** [net.IP.String] on a 4-byte address: dotted decimal. *)
Definition IP_String (a : IP) : string :=
  match a with
  | [a; b; c; d] =>
      decimal a +:+ "." +:+ decimal b +:+ "." +:+ decimal c +:+ "."
              +:+ decimal d
  | _ => "?"
  end.

(** [dns.ReverseAddr] on the text of an IPv4 address: the octets in
    reverse order under [in-addr.arpa.]; an error and the empty name
    for any other text. *)
Definition ReverseAddr (addr : string) : string * error :=
  match parse_ipv4 addr with
  | Some [a; b; c; d] =>
      (decimal d +:+ "." +:+ decimal c +:+ "." +:+ decimal b +:+ "."
               +:+ decimal a +:+ ".in-addr.arpa.", None)
  | _ => ("", Some ("unrecognized address: " +:+ addr))
  end.

Definition is_space (c : ascii) : bool :=
  Ascii.eqb c " "%char || Ascii.eqb c "009"%char || Ascii.eqb c "013"%char.

(** [strings.Fields]: the maximal runs of non-space bytes. *)
Fixpoint fields_from (cur : string) (s : string) : list string :=
  match s with
  | EmptyString => if String.eqb cur "" then [] else [cur]
  | String c rest =>
      if is_space c
      then (if String.eqb cur "" then fields_from "" rest
            else cur :: fields_from "" rest)
      else fields_from (cur +:+ String c "") rest
  end.

Definition fields (s : string) : list string := fields_from "" s.

Definition parse_line (line : string) : hostlist :=
  match fields line with
  | addr :: names =>
      if String.eqb (substring 0 1 addr) "#" then []
      else match parse_ipv4 addr with
           | Some a =>
               map (fun n => mkHostname (TrimSuffix (ToLower n) ".") a) names
           | None => []
           end
  | [] => []
  end.

(** Modelled from the spec: the Parser ([newHostlist], declared in
    another file of the package), for files whose address fields are
    IPv4: comment and blank lines are skipped, a line with an
    unparsable address or without a hostname yields nothing, every
    other line yields one entry per hostname, lower-cased and without
    trailing ".", in field order. *)
Definition newHostlist (data : list byte) : hostlist :=
  flat_map parse_line (split_on "010"%char (string_of_list_byte data)).

(** The file of the documentation's example. *)
Definition example_file : list byte :=
  list_byte_of_string
    ("127.0.0.1 localhost" +:+ String "010"%char
     ("10.0.0.5 foo.example.com bar.example.com" +:+ String "010"%char "")).

End IPv4.


(** The example table of the documentation:
    [127.0.0.1 localhost] and [10.0.0.5 foo.example.com bar.example.com]. *)
Definition ip_127_0_0_1 : IP := [x7f; x00; x00; x01].
Definition ip_10_0_0_5 : IP := [x0a; x00; x00; x05].

Definition example_hosts : hostlist :=
  [ mkHostname "localhost" ip_127_0_0_1;
    mkHostname "foo.example.com" ip_10_0_0_5;
    mkHostname "bar.example.com" ip_10_0_0_5 ].

Definition example_instance : Hostsfile :=
  mkHostsfile (Some (mkConfig 0 false)) example_hosts
              (mkFileInfo 0 "/etc/hosts" zero_time).

Definition ip_10_0_0_9 : IP := [x0a; x00; x00; x09].

(** ** Forward lookup *)

(** The body of the [range] loop of [FindHosts]: one iteration. *)
Definition FindHosts_step (name : string) (addrs : list IP) (h : hostname)
  : list IP :=
  if String.eqb (domain h) name then addrs ++ [ip h] else addrs.

(** [FindHosts]: trim one trailing ".", then scan [*h.hosts] from the
    first entry, appending to [addrs] (initially [nil]).  [err] is the
    named result and is never assigned. *)
Definition FindHosts (h : Hostsfile) (name : string) : list IP * error :=
  let name := TrimSuffix name "." in
  let addrs := fold_left (FindHosts_step name) (hosts h) [] in
  (addrs, None).

(** What the forward lookup is meant to compute, as a filter. *)
Definition addresses_of (name : string) (t : hostlist) : list IP :=
  map ip (filter (fun e => String.eqb (domain e) name) t).

(** A table whose domains are stored in canonical form. *)
Definition no_trailing_dot (t : hostlist) : Prop :=
  Forall (fun e => HasSuffix (domain e) "." = false) t.

Definition lower_cased (t : hostlist) : Prop :=
  Forall (fun e => ToLower (domain e) = domain e) t.

(** [q] is a spelling of [d] up to ASCII case and one trailing ".". *)
Definition variant_of (q d : string) : Prop :=
  ToLower (TrimSuffix q ".") = d.

(** ** Reverse lookup, loader, constructor and poller *)

Section Package.

(** [newHostlist] (the parser, another file of the package),
    [net.IP.String] and [dns.ReverseAddr] (libraries). *)
Variable newHostlist : list byte -> hostlist.
Variable IP_String : IP -> string.
Variable ReverseAddr : string -> string * error.

(** Does the entry's address map to the reverse name [name]?  This is
    the condition of the [if] in [FindReverse]; the error of
    [dns.ReverseAddr] is dropped, as in [r, _ := ...]. *)
Definition reverse_matches (name : string) (h : hostname) : bool :=
  let '(r, _) := ReverseAddr (IP_String (ip h)) in
  String.eqb name r.

(** The [range] loop of [FindReverse]: the first match assigns [host]
    and breaks. *)
Fixpoint FindReverse_loop (name : string) (l : hostlist) (host : string)
  : string :=
  match l with
  | [] => host
  | hostname :: rest =>
      if reverse_matches name hostname
      then Fqdn (domain hostname)
      else FindReverse_loop name rest host
  end.

(** [FindReverse]: [host] starts as the empty string, [err] is never
    assigned. *)
Definition FindReverse (h : Hostsfile) (name : string) : string * error :=
  (FindReverse_loop name (hosts h) "", None).

Definition set_hosts (h : Hostsfile) (t : hostlist) : Hostsfile :=
  mkHostsfile (config h) t (file h).

Definition set_path (h : Hostsfile) (p : string) : Hostsfile :=
  mkHostsfile (config h) (hosts h)
              (mkFileInfo (size (file h)) p (mtime (file h))).

Definition set_mtime (h : Hostsfile) (m : Time) : Hostsfile :=
  mkHostsfile (config h) (hosts h)
              (mkFileInfo (size (file h)) (path (file h)) m).

Definition set_size (h : Hostsfile) (s : Z) : Hostsfile :=
  mkHostsfile (config h) (hosts h)
              (mkFileInfo s (path (file h)) (mtime (file h))).

(** [loadHostEntries]: read the file; on an error return it and leave
    the receiver alone; otherwise install the parsed table.  Only
    [h.hosts] is written. *)
Definition loadHostEntries (w : World) (h : Hostsfile)
  : Hostsfile * error * list Event :=
  match ReadFile w (path (file h)) with
  | (_, Some err) => (h, Some err, [EvRead (path (file h))])
  | (data, None) =>
      (set_hosts h (newHostlist data), None,
       [EvRead (path (file h)); EvParse data])
  end.

(** What [NewHostsfile] hands back: the two results, the argument of
    the [go h.monitorHostEntries(...)] statement when it is reached,
    and what the call did. *)
Record Construction : Type := mkConstruction {
  instance : option Hostsfile;
  failure  : error;
  poller   : option Z;
  events   : list Event
}.

Definition verbose_listing (h : Hostsfile) : list Event :=
  EvLog ("Found entries in " +:+ path (file h) +:+ ":")
  :: map (fun hostname =>
            EvLog (domain hostname +:+ " " +:+ IP_String (ip hostname) +:+ " "))
         (hosts h).

(** [NewHostsfile].  The literal [Hostsfile{config: config}] has a [nil]
    table, written here as the empty list: it is replaced before the
    value can be returned. *)
Definition NewHostsfile (w : World) (path : string) (cfg : option Config)
  : Outcome Construction :=
  let h := mkHostsfile cfg [] zero_file in
  if String.eqb path "" then
    let h := set_hosts h [] in
    Done (mkConstruction (Some h) None None [])
  else
    let h := set_path h path in
    match loadHostEntries w h with
    | (_, Some err, evs) => Done (mkConstruction None (Some err) None evs)
    | (h, None, evs) =>
        match config h with
        | None => Panic "nil pointer dereference"
        | Some c =>
            let started := if (0 <? Poll c)%Z then Some (Poll c) else None in
            let listing := if Verbose c then verbose_listing h else [] in
            Done (mkConstruction (Some h) None started (evs ++ listing))
        end
    end.

(** The state of the goroutine running [monitorHostEntries]: the
    receiver, the local copy [hf] of [h.file], and what it did so far. *)
Record Poller : Type := mkPoller {
  self  : Hostsfile;
  hf    : FileInfo;
  trace : list Event
}.

Definition emit (p : Poller) (evs : list Event) : Poller :=
  mkPoller (self p) (hf p) (trace p ++ evs).

(** One iteration of the [for range time.Tick(t)] loop. *)
Definition monitor_tick (w : World) (p : Poller) : Outcome Poller :=
  let '(mtime', size', err) := hostsFileMetadata w (path (hf p)) in
  let stat := EvStat (path (hf p)) in
  match err with
  | Some e =>
      (* log, continue *)
      Done (emit p [stat; EvLog ("go-dnsmasq: error stating hostsfile: " +:+ e)])
  | None =>
      if Time_Equal (mtime (hf p)) mtime' && (size (hf p) =? size')%Z
      then Done (emit p [stat]) (* continue: no updates *)
      else
        let '(h1, err, evs) := loadHostEntries w (self p) in
        let failed :=
          match err with
          | Some e => [EvLog ("go-dnsmasq: error opening hostsfile: " +:+ e)]
          | None => []
          end in
        match config h1 with
        | None => Panic "nil pointer dereference"
        | Some c =>
            let reloaded :=
              if Verbose c then [EvLog "go-dnsmasq: reloaded changed hostsfile"]
              else [] in
            let h2 := set_size (set_mtime h1 mtime') size' in
            Done (mkPoller h2 (file h2)
                           (trace p ++ stat :: evs ++ failed ++ reloaded))
        end
  end.

Fixpoint run_ticks (ticks : list World) (p : Poller) : Outcome Poller :=
  match ticks with
  | [] => Done p
  | w :: rest =>
      match monitor_tick w p with
      | Done p' => run_ticks rest p'
      | Panic r => Panic r
      end
  end.

(** [int64] wrap-around of [time.Duration(poll) * time.Second]. *)
Definition wrap64 (z : Z) : Z := ((z + 2 ^ 63) mod 2 ^ 64 - 2 ^ 63)%Z.
Definition Second : Z := 1000000000%Z.

(** [monitorHostEntries] over the ticks that have been delivered so far
    ([ticks] gives the file system at each of them).  With an empty
    path the function returns at once; [time.Tick] of a non-positive
    duration is a [nil] channel, on which no tick ever arrives. *)
Definition monitorHostEntries (h : Hostsfile) (poll : Z) (ticks : list World)
  : Outcome Poller :=
  let hf := file h in
  if String.eqb (path hf) "" then Done (mkPoller h hf [])
  else
    let t := wrap64 (poll * Second) in
    if (t <=? 0)%Z then Done (mkPoller h hf [])
    else run_ticks ticks (mkPoller h hf []).

(** ** Readers and the loader as interleaved threads *)

(** [sync.RWMutex]: the number of read locks held and whether the write
    lock is held.  [RLock] needs the write lock free; [Lock] needs
    every lock free.  (Go also makes new readers wait behind a waiting
    writer; that only removes interleavings.) *)
Record Shared : Type := mkShared {
  inst    : Hostsfile;
  rcount  : nat;
  wlocked : bool
}.

Definition with_inst (sh : Shared) (h : Hostsfile) : Shared :=
  mkShared h (rcount sh) (wlocked sh).

(** Program points of a goroutine inside [FindHosts], [FindReverse] or
    [loadHostEntries], with its local variables.  A reader fetches the
    entry at its index from the shared table at every iteration, which
    is the weakest reading of [range *h.hosts]. *)
Inductive Thread : Type :=
| FH_call (name : string)
| FH_RLock (name : string)
| FH_range (name : string) (i : nat) (addrs : list IP)
| FH_RUnlock (addrs : list IP)
| FH_ret (addrs : list IP) (err : error)
| FR_call (name : string)
| FR_range (name : string) (i : nat)
| FR_RUnlock (host : string)
| FR_ret (host : string) (err : error)
| LD_call (w : World)
| LD_Lock (data : list byte)
| LD_assign (data : list byte)
| LD_Unlock
| LD_ret (err : error).

(** One step of a thread; [None] when it waits for the mutex or has
    returned. *)
Definition thread_step (sh : Shared) (t : Thread) : option (Shared * Thread) :=
  match t with
  | FH_call name => Some (sh, FH_RLock (TrimSuffix name "."))
  | FH_RLock name =>
      if wlocked sh then None
      else Some (mkShared (inst sh) (S (rcount sh)) (wlocked sh),
                 FH_range name 0 [])
  | FH_range name i addrs =>
      match nth_error (hosts (inst sh)) i with
      | Some hostname =>
          Some (sh, FH_range name (S i) (FindHosts_step name addrs hostname))
      | None => Some (sh, FH_RUnlock addrs)
      end
  | FH_RUnlock addrs =>
      Some (mkShared (inst sh) (pred (rcount sh)) (wlocked sh),
            FH_ret addrs None)
  | FH_ret _ _ => None
  | FR_call name =>
      if wlocked sh then None
      else Some (mkShared (inst sh) (S (rcount sh)) (wlocked sh),
                 FR_range name 0)
  | FR_range name i =>
      match nth_error (hosts (inst sh)) i with
      | Some hostname =>
          if reverse_matches name hostname
          then Some (sh, FR_RUnlock (Fqdn (domain hostname)))
          else Some (sh, FR_range name (S i))
      | None => Some (sh, FR_RUnlock "")
      end
  | FR_RUnlock host =>
      Some (mkShared (inst sh) (pred (rcount sh)) (wlocked sh),
            FR_ret host None)
  | FR_ret _ _ => None
  | LD_call w =>
      match ReadFile w (path (file (inst sh))) with
      | (_, Some err) => Some (sh, LD_ret (Some err))
      | (data, None) => Some (sh, LD_Lock data)
      end
  | LD_Lock data =>
      if wlocked sh || negb (rcount sh =? 0)%nat then None
      else Some (mkShared (inst sh) (rcount sh) true, LD_assign data)
  | LD_assign data =>
      Some (with_inst sh (set_hosts (inst sh) (newHostlist data)), LD_Unlock)
  | LD_Unlock => Some (mkShared (inst sh) (rcount sh) false, LD_ret None)
  | LD_ret _ => None
  end.

Definition State : Type := (Shared * list Thread)%type.

Fixpoint set_nth (i : nat) (t : Thread) (ts : list Thread) : list Thread :=
  match ts, i with
  | [], _ => []
  | _ :: rest, O => t :: rest
  | x :: rest, S j => x :: set_nth j t rest
  end.

(** The scheduler picks thread [i]; a pick of a waiting or finished
    thread changes nothing. *)
Definition sched_step (st : State) (i : nat) : State :=
  let '(sh, ts) := st in
  match nth_error ts i with
  | Some t =>
      match thread_step sh t with
      | Some (sh', t') => (sh', set_nth i t' ts)
      | None => st
      end
  | None => st
  end.

Definition run (sched : list nat) (st : State) : State :=
  fold_left sched_step sched st.

(** A call that has not started yet. *)
Definition is_reader_call (t : Thread) : bool :=
  match t with FH_call _ | FR_call _ => true | _ => false end.

(** A reload of the file [data] racing with the lookups [readers] on an
    instance whose mutex is free. *)
Definition reload_race (h : Hostsfile) (w : World) (readers : list Thread)
  : State :=
  (mkShared h 0 false, LD_call w :: readers).

(** Construction returned an error. *)
Definition construction_fails (o : Outcome Construction) : Prop :=
  match o with
  | Done c => failure c <> None
  | Panic _ => False
  end.

(** *** The lock discipline, as an invariant of the interleavings *)

(** Program points at which the read lock, resp. the write lock, is
    held. *)
Definition in_read_section (t : Thread) : bool :=
  match t with
  | FH_range _ _ _ | FH_RUnlock _ | FR_range _ _ | FR_RUnlock _ => true
  | _ => false
  end.

Definition in_write_section (t : Thread) : bool :=
  match t with
  | LD_assign _ | LD_Unlock => true
  | _ => false
  end.

Definition count (f : Thread -> bool) (ts : list Thread) : nat :=
  List.length (filter f ts).

Definition returned (t : Thread) : bool :=
  match t with FH_ret _ _ | FR_ret _ _ => true | _ => false end.

(** The thread has left its function. *)
Definition finished (t : Thread) : bool :=
  match t with FH_ret _ _ | FR_ret _ _ | LD_ret _ => true | _ => false end.

(** The state in which the lookup [call] returns when it runs alone on
    the instance [h] holding the table [T]. *)
Definition answer_on (h : Hostsfile) (T : hostlist) (call : Thread)
  : option Thread :=
  match call with
  | FH_call name =>
      let '(addrs, err) := FindHosts (set_hosts h T) name in
      Some (FH_ret addrs err)
  | FR_call name =>
      let '(host, err) := FindReverse (set_hosts h T) name in
      Some (FR_ret host err)
  | _ => None
  end.

(** What is known of a thread that started as the call [t0] and is now
    at [t], the shared state being [sh]: a reader inside its loop has
    processed a prefix of the table that is installed now; a reader
    past its loop holds the answer for one of the tables [cands]. *)
Definition thread_ok (h0 : Hostsfile) (cands : list hostlist) (sh : Shared)
           (t0 t : Thread) : Prop :=
  match t0, t with
  | FH_call name0, FH_call name => name = name0
  | FH_call name0, FH_RLock name => name = TrimSuffix name0 "."
  | FH_call name0, FH_range name i addrs =>
      name = TrimSuffix name0 "."
      /\ addrs = fold_left (FindHosts_step name)
                           (firstn i (hosts (inst sh))) []
  | FH_call _, FH_RUnlock addrs =>
      exists T, In T cands /\ Some (FH_ret addrs None) = answer_on h0 T t0
  | FH_call _, FH_ret _ _ =>
      exists T, In T cands /\ Some t = answer_on h0 T t0
  | FR_call name0, FR_call name => name = name0
  | FR_call name0, FR_range name i =>
      name = name0
      /\ forall x, In x (firstn i (hosts (inst sh))) ->
                   reverse_matches name x = false
  | FR_call _, FR_RUnlock host =>
      exists T, In T cands /\ Some (FR_ret host None) = answer_on h0 T t0
  | FR_call _, FR_ret _ _ =>
      exists T, In T cands /\ Some t = answer_on h0 T t0
  | LD_call w0, LD_call w => w = w0
  | LD_call _, LD_Lock data => In (newHostlist data) cands
  | LD_call _, LD_assign data => In (newHostlist data) cands
  | LD_call _, LD_Unlock => True
  | LD_call _, LD_ret _ => True
  | _, _ => False
  end.

(** [cands] holds every table a loader among [ts0] can install. *)
Definition covers (h0 : Hostsfile) (cands : list hostlist)
           (ts0 : list Thread) : Prop :=
  forall w data,
    In (LD_call w) ts0 ->
    read_of w (path (file h0)) = inl data ->
    In (newHostlist data) cands.

Definition Inv (h0 : Hostsfile) (cands : list hostlist) (ts0 : list Thread)
           (st : State) : Prop :=
  Forall2 (thread_ok h0 cands (fst st)) ts0 (snd st)
  /\ file (inst (fst st)) = file h0
  /\ In (hosts (inst (fst st))) cands
  /\ rcount (fst st) = count in_read_section (snd st)
  /\ count in_write_section (snd st) = (if wlocked (fst st) then 1 else 0)
  /\ (wlocked (fst st) = true -> rcount (fst st) = 0).

(** ** Further observations and starting states *)

Definition is_stat (e : Event) : bool :=
  match e with EvStat _ => true | _ => false end.

(** Number of stats of the file in a trace. *)
Definition stats (tr : list Event) : nat := List.length (filter is_stat tr).

(** A call that has not started yet: a lookup or a reload. *)
Definition is_call (t : Thread) : bool :=
  match t with FH_call _ | FR_call _ | LD_call _ => true | _ => false end.

(** Any number of lookups and reloads started on an instance whose mutex
    is free. *)
Definition race (h : Hostsfile) (ts : list Thread) : State :=
  (mkShared h 0 false, ts).

(** The tables that the reloads among [ts] install on [h] when their read
    succeeds. *)
Definition loaded_tables (h : Hostsfile) (ts : list Thread) : list hostlist :=
  flat_map (fun t =>
              match t with
              | LD_call w =>
                  match read_of w (path (file h)) with
                  | inl data => [newHostlist data]
                  | inr _ => []
                  end
              | _ => []
              end) ts.

(** A thread scheduled [n] times in a row with nothing in between. *)
Fixpoint steps_alone (n : nat) (sh : Shared) (t : Thread) : Shared * Thread :=
  match n with
  | O => (sh, t)
  | S n' =>
      match thread_step sh t with
      | Some (sh', t') => steps_alone n' sh' t'
      | None => (sh, t)
      end
  end.

(** The mutex after an [RUnlock]. *)
Definition unlock_read (sh : Shared) : Shared :=
  mkShared (inst sh) (pred (rcount sh)) (wlocked sh).

(** ** Inputs for the examples *)

(** File systems for the examples: the hosts file is the only file. *)
Definition hosts_path : string := "/etc/hosts".

Definition world_ok (m : Time) (s : Z) (data : list byte) : World :=
mkWorld
  (fun p => if String.eqb p hosts_path then inl (m, s)
            else inr "no such file or directory")
  (fun p => if String.eqb p hosts_path then inl data
            else inr "no such file or directory").

(** The file can be stat-ed but not read. *)
Definition world_unreadable (m : Time) (s : Z) : World :=
mkWorld
  (fun p => if String.eqb p hosts_path then inl (m, s)
            else inr "no such file or directory")
  (fun _ => inr "permission denied").

Definition world_missing : World :=
mkWorld (fun _ => inr "no such file or directory")
        (fun _ => inr "no such file or directory").

(** The example file as it is on disk (61 bytes), and a later version. *)
Definition example_world : World :=
world_ok 1700000000%Z 61%Z IPv4.example_file.

Definition changed_file : list byte :=
list_byte_of_string ("10.0.0.9 foo.example.com" +:+ String "010"%char "").

Definition changed_world : World :=
world_ok 1700000500%Z 25%Z changed_file.

Definition polling_config : option Config := Some (mkConfig 30%Z false).

(** The instance as [NewHostsfile] returns it for the example file. *)
Definition constructed_instance : Hostsfile :=
mkHostsfile polling_config example_hosts
            (mkFileInfo 0 hosts_path zero_time).

(** The lookups and the schedule of the example race: the first lookup
  takes the read lock and scans two entries, the loader reads the file
  and asks for the write lock, the lookup finishes, the loader installs
  the new table, then the second lookup runs. *)
Definition race_readers : list Thread :=
[FH_call "foo.example.com."; FR_call "9.0.0.10.in-addr.arpa."].

Definition race_schedule : list nat :=
[1; 1; 1; 1; 0; 0; 1; 1; 1; 1; 0; 0; 0; 0; 2; 2; 2; 2; 2].

(** The instance once the example file is loaded and its metadata is the
  poller's baseline. *)
Definition loaded_instance : Hostsfile :=
mkHostsfile polling_config example_hosts
            (mkFileInfo 61%Z hosts_path 1700000000%Z).

(** The poller on the loaded example, ticks that see the file unchanged,
    changed, unreadable and gone, and a race of two reloads with two
    lookups. *)
Definition example_poller : Poller :=
  mkPoller loaded_instance (file loaded_instance) [].

Definition example_ticks : list World :=
  [example_world; changed_world; world_unreadable 1700000900%Z 70%Z;
   world_missing].

Definition reload_threads : list Thread :=
  [LD_call changed_world; LD_call example_world;
   FH_call "foo.example.com."; FR_call "5.0.0.10.in-addr.arpa."].

Definition reload_schedule : list nat :=
  [2; 2; 2; 0; 0; 1; 2; 2; 2; 2; 0; 0; 0; 1; 1; 1; 1; 3; 3; 3; 3; 3].

(** ** Facts about the string helpers *)

Lemma substring_prefix_app (s t : string) :
  substring 0 (String.length s) (s +:+ t) = s.
Proof.
  induction s as [|c s IH]; simpl.
  - destruct t; reflexivity.
  - now rewrite IH.
Qed.

Lemma substring_suffix_app (s t : string) :
  substring (String.length s) (String.length t) (s +:+ t) = t.
Proof.
  induction s as [|c s IH]; simpl; [|exact IH].
  pose proof (substring_prefix_app t "") as H.
  assert (E : t +:+ "" = t) by (clear; induction t; simpl; congruence).
  now rewrite E in H.
Qed.

Lemma string_length_app (s t : string) :
  String.length (s +:+ t) = String.length s + String.length t.
Proof. induction s; simpl; congruence. Qed.

Lemma HasSuffix_app (s suffix : string) :
  HasSuffix (s +:+ suffix) suffix = true.
Proof.
  unfold HasSuffix. rewrite string_length_app.
  replace (String.length s + String.length suffix - String.length suffix)
    with (String.length s) by lia.
  rewrite substring_suffix_app, String.eqb_refl, andb_true_r.
  apply Nat.leb_le. lia.
Qed.

Lemma TrimSuffix_app (s suffix : string) :
  TrimSuffix (s +:+ suffix) suffix = s.
Proof.
  unfold TrimSuffix. rewrite HasSuffix_app, string_length_app.
  replace (String.length s + String.length suffix - String.length suffix)
    with (String.length s) by lia.
  apply substring_prefix_app.
Qed.

Lemma TrimSuffix_none (s suffix : string) :
  HasSuffix s suffix = false -> TrimSuffix s suffix = s.
Proof. unfold TrimSuffix. now intros ->. Qed.

Lemma app_assoc_string (s t u : string) : (s +:+ t) +:+ u = s +:+ (t +:+ u).
Proof. induction s; simpl; congruence. Qed.


Lemma HasSuffix_dot_cons (c : ascii) (s : string) :
  s <> "" -> HasSuffix (String c s) "." = HasSuffix s ".".
Proof.
  intros Hs. unfold HasSuffix. destruct s as [|c' s']; [congruence|].
  simpl String.length.
  replace (S (S (String.length s')) - 1) with (S (String.length s')) by lia.
  replace (S (String.length s') - 1) with (String.length s') by lia.
  reflexivity.
Qed.

(** [strings.HasSuffix] against the one-byte separator is [dns.IsFqdn]. *)
Lemma IsFqdn_HasSuffix (s : string) : IsFqdn s = HasSuffix s ".".
Proof.
  induction s as [|c s IH]; [reflexivity|].
  destruct s as [|c' s'].
  - unfold IsFqdn, HasSuffix. simpl.
    destruct (Ascii.eqb_spec c "."%char) as [->|Hc]; [reflexivity|].
    destruct (String.eqb_spec (String c "") ".") as [E|E]; [|reflexivity].
    congruence.
  - rewrite HasSuffix_dot_cons by discriminate. rewrite <- IH.
    unfold IsFqdn. simpl String.length.
    replace (S (S (String.length s')) - 1) with (S (String.length s')) by lia.
    replace (S (String.length s') - 1) with (String.length s') by lia.
    reflexivity.
Qed.

Lemma Fqdn_restores (s : string) :
  HasSuffix s "." = false -> Fqdn s = s +:+ ".".
Proof. intros H. unfold Fqdn. now rewrite IsFqdn_HasSuffix, H. Qed.

Lemma lower_byte_idem (c : ascii) : lower_byte (lower_byte c) = lower_byte c.
Proof.
  unfold lower_byte.
  destruct ((65 <=? nat_of_ascii c) && (nat_of_ascii c <=? 90))%nat eqn:E.
  - apply andb_true_iff in E as [E1 E2].
    apply Nat.leb_le in E1, E2.
    rewrite nat_ascii_embedding by lia.
    replace (nat_of_ascii c + 32 <=? 90)%nat with false
      by (symmetry; apply Nat.leb_gt; lia).
    now rewrite andb_false_r.
  - now rewrite E.
Qed.

Lemma ToLower_idem (s : string) : ToLower (ToLower s) = ToLower s.
Proof.
  induction s as [|c s IH]; simpl; [reflexivity|].
  now rewrite lower_byte_idem, IH.
Qed.

(** ** The forward lookup *)

Lemma FindHosts_fold (name : string) (l : hostlist) (acc : list IP) :
  fold_left (FindHosts_step name) l acc = acc ++ addresses_of name l.
Proof.
  revert acc. induction l as [|e l IH]; intros acc; simpl.
  - now rewrite app_nil_r.
  - rewrite IH. unfold FindHosts_step, addresses_of. simpl.
    destruct (String.eqb (domain e) name); simpl.
    + now rewrite <- app_assoc.
    + reflexivity.
Qed.

Lemma FindHosts_spec (h : Hostsfile) (name : string) :
  FindHosts h name = (addresses_of (TrimSuffix name ".") (hosts h), None).
Proof. unfold FindHosts. now rewrite FindHosts_fold. Qed.

Lemma addresses_of_none (name : string) (t : hostlist) :
  (forall e, In e t -> domain e <> name) -> addresses_of name t = [].
Proof.
  unfold addresses_of. induction t as [|e t IH]; intros H; simpl.
  - reflexivity.
  - destruct (String.eqb_spec (domain e) name) as [E|_].
    + exfalso. apply (H e); [now left | exact E].
    + apply IH. intros x Hx. apply H. now right.
Qed.

Lemma substring_whole (s : string) : substring 0 (String.length s) s = s.
Proof. induction s as [|c s IH]; simpl; [reflexivity | now rewrite IH]. Qed.

Lemma substring_split (s : string) (k : nat) :
  k <= String.length s ->
  substring 0 k s +:+ substring k (String.length s - k) s = s.
Proof.
  revert k. induction s as [|c s IH]; intros [|k] Hk; simpl in *;
    try reflexivity; try lia.
  - now rewrite substring_whole.
  - now rewrite IH by lia.
Qed.

(** A string that [strings.HasSuffix] accepts is a string followed by the
    suffix, and [strings.TrimSuffix] returns that string. *)
Lemma HasSuffix_inv (s suffix : string) :
  HasSuffix s suffix = true -> s = TrimSuffix s suffix +:+ suffix.
Proof.
  intros H. unfold TrimSuffix. rewrite H. unfold HasSuffix in H.
  apply andb_true_iff in H as [Hl He].
  apply Nat.leb_le in Hl. apply String.eqb_eq in He.
  pose proof (substring_split s (String.length s - String.length suffix)) as E.
  replace (String.length s - (String.length s - String.length suffix))
    with (String.length suffix) in E by lia.
  rewrite He in E. symmetry. apply E. lia.
Qed.

Lemma no_separator_at_end (s : string) :
  HasSuffix s "." = false <-> forall n, s <> n +:+ ".".
Proof.
  split.
  - intros H n E. rewrite E, HasSuffix_app in H. discriminate.
  - intros H. destruct (HasSuffix s ".") eqn:E; [|reflexivity].
    exfalso. apply (H (TrimSuffix s ".")). now apply HasSuffix_inv.
Qed.

(** C4: [FindHosts] strips one trailing "." from the query and returns
    the addresses of exactly the entries whose stored domain equals the
    stripped query, in table order: a query [n + "."] is answered with
    the entries whose domain is [n], a query that does not end in "."
    with the entries whose domain is the query itself, and every query
    is of one of the two kinds; without a match the result is the empty
    sequence; the error result is always [nil]. *)
Theorem FindHosts_returns_matching_addresses (h : Hostsfile) (name : string) :
  (forall n, name = n +:+ "." ->
     FindHosts h name
     = (map ip (filter (fun e => String.eqb (domain e) n) (hosts h)), None))
  /\ ((forall n, name <> n +:+ ".") ->
      FindHosts h name
      = (map ip (filter (fun e => String.eqb (domain e) name) (hosts h)),
         None))
  /\ ((exists n, name = n +:+ ".") \/ (forall n, name <> n +:+ "."))
  /\ (forall n,
        name = n +:+ "." \/ (name = n /\ forall m, name <> m +:+ ".") ->
        (forall e, In e (hosts h) -> domain e <> n) ->
        FindHosts h name = ([], None))
  /\ snd (FindHosts h name) = None.
Proof.
  assert (H1 : forall n, name = n +:+ "." ->
                 FindHosts h name = (addresses_of n (hosts h), None)).
  { intros n ->. now rewrite FindHosts_spec, TrimSuffix_app. }
  assert (H2 : (forall n, name <> n +:+ ".") ->
               FindHosts h name = (addresses_of name (hosts h), None)).
  { intros Hn. apply no_separator_at_end in Hn.
    now rewrite FindHosts_spec, TrimSuffix_none. }
  split; [exact H1|]. split; [exact H2|]. split; [|split].
  - destruct (HasSuffix name ".") eqn:E.
    + left. exists (TrimSuffix name "."). now apply HasSuffix_inv.
    + right. now apply no_separator_at_end.
  - intros n [E|[E Hn]] Hnone.
    + rewrite (H1 n E). now rewrite addresses_of_none.
    + rewrite (H2 Hn), <- E in *. now rewrite addresses_of_none.
  - reflexivity.
Qed.

(** C10: [FindHosts] strips at most one trailing ".": for a name that
    does not end in ".", the query [name + "."] gives the result of the
    query [name]; the query [name + ".."] is reduced to [name + "."]
    only, and finds nothing in a table whose domains carry no trailing
    ".". *)
Theorem FindHosts_strips_one_separator (h : Hostsfile) (name : string) :
  HasSuffix name "." = false ->
  FindHosts h (name +:+ ".") = FindHosts h name
  /\ TrimSuffix (name +:+ "..") "." = name +:+ "."
  /\ (no_trailing_dot (hosts h) -> FindHosts h (name +:+ "..") = ([], None)).
Proof.
  intros Hname.
  assert (Htwo : TrimSuffix (name +:+ "..") "." = name +:+ ".").
  { change ".." with ("." +:+ "."). rewrite <- app_assoc_string.
    apply TrimSuffix_app. }
  repeat split.
  - rewrite !FindHosts_spec, TrimSuffix_app, TrimSuffix_none; auto.
  - exact Htwo.
  - intros Ht. rewrite FindHosts_spec, Htwo, addresses_of_none; auto.
    intros e He E. unfold no_trailing_dot in Ht.
    rewrite Forall_forall in Ht. specialize (Ht e He).
    rewrite E, HasSuffix_app in Ht. discriminate.
Qed.

(** C1 (amended): [FindHosts] is insensitive to one trailing "." but
    compares the stripped query with the stored domains byte for byte.
    For a spelling [q] of the canonical domain [d] (lower-case, no
    trailing ".") and a table of lower-cased domains, the result is the
    one for [d] when [q] stripped is [d] itself, and empty when [q]
    differs from [d] in the case of a letter. *)
Theorem FindHosts_exact_case (h : Hostsfile) (q d : string) :
  variant_of q d ->
  HasSuffix d "." = false ->
  lower_cased (hosts h) ->
  FindHosts h q
  = if String.eqb (TrimSuffix q ".") d then FindHosts h d else ([], None).
Proof.
  unfold variant_of. intros Hv Hd Hl.
  destruct (String.eqb_spec (TrimSuffix q ".") d) as [E|E].
  - rewrite !FindHosts_spec, E, (TrimSuffix_none d) by exact Hd.
    reflexivity.
  - rewrite FindHosts_spec, addresses_of_none; [reflexivity|].
    intros e He Ee. unfold lower_cased in Hl.
    rewrite Forall_forall in Hl. specialize (Hl e He).
    apply E. rewrite <- Hv, <- Ee. symmetry. exact Hl.
Qed.

(** ** The reverse lookup *)

Lemma FindReverse_loop_find (name : string) (l : hostlist) (host : string) :
  FindReverse_loop name l host
  = match find (reverse_matches name) l with
    | Some e => Fqdn (domain e)
    | None => host
    end.
Proof.
  induction l as [|e l IH]; simpl; [reflexivity|].
  destruct (reverse_matches name e); [reflexivity | exact IH].
Qed.

Lemma find_first (name : string) (pre post : hostlist) (e : hostname) :
  (forall x, In x pre -> reverse_matches name x = false) ->
  reverse_matches name e = true ->
  find (reverse_matches name) (pre ++ e :: post) = Some e.
Proof.
  intros Hpre He. induction pre as [|x pre IH]; simpl.
  - now rewrite He.
  - rewrite (Hpre x) by now left. apply IH.
    intros y Hy. apply Hpre. now right.
Qed.

Lemma find_nothing (name : string) (l : hostlist) :
  (forall x, In x l -> reverse_matches name x = false) ->
  find (reverse_matches name) l = None.
Proof.
  intros H. induction l as [|x l IH]; simpl; [reflexivity|].
  rewrite (H x) by now left. apply IH. intros y Hy. apply H. now right.
Qed.

(** C5: [FindReverse] returns the domain of the first entry, in table
    order, whose address maps to the queried reverse name, as a fully
    qualified name (the trailing "." put back); entries after that one
    are not looked at, whatever their address; without a match the
    result is the empty string; the error result is always [nil]. *)
Theorem FindReverse_returns_first_match (h : Hostsfile) (name : string) :
  FindReverse h name
  = (match find (reverse_matches name) (hosts h) with
     | Some e => Fqdn (domain e)
     | None => ""
     end, None)
  /\ (forall pre e post,
         hosts h = pre ++ e :: post ->
         (forall x, In x pre -> reverse_matches name x = false) ->
         reverse_matches name e = true ->
         FindReverse h name = (Fqdn (domain e), None)
         /\ (HasSuffix (domain e) "." = false ->
             FindReverse h name = (domain e +:+ ".", None)))
  /\ ((forall x, In x (hosts h) -> reverse_matches name x = false) ->
      FindReverse h name = ("", None)).
Proof.
  unfold FindReverse. rewrite FindReverse_loop_find. repeat split.
  - rewrite H, (find_first name pre post e); auto.
  - intros Hd. rewrite H, (find_first name pre post e); auto.
    now rewrite Fqdn_restores.
  - intros Hn. now rewrite find_nothing.
Qed.

(** ** Construction *)

Lemma eqb_path_nonempty (p : string) : p <> "" -> String.eqb p "" = false.
Proof. intros H. now apply String.eqb_neq. Qed.

Lemma loadHostEntries_failure (w : World) (h : Hostsfile) (e : string) :
  read_of w (path (file h)) = inr e ->
  loadHostEntries w h = (h, Some e, [EvRead (path (file h))]).
Proof. intros H. unfold loadHostEntries, ReadFile. now rewrite H. Qed.

Lemma loadHostEntries_success (w : World) (h : Hostsfile) (data : list byte) :
  read_of w (path (file h)) = inl data ->
  loadHostEntries w h
  = (set_hosts h (newHostlist data), None,
     [EvRead (path (file h)); EvParse data]).
Proof. intros H. unfold loadHostEntries, ReadFile. now rewrite H. Qed.

(** C7: with the empty path, [NewHostsfile] succeeds for every
    configuration and every file system, the table is empty (every
    forward lookup is empty, every reverse lookup is the empty string),
    no poller is started and, were one started on the instance, it
    would return without doing anything. *)
Theorem NewHostsfile_empty_path (w : World) (cfg : option Config) :
  let h := mkHostsfile cfg [] zero_file in
  NewHostsfile w "" cfg = Done (mkConstruction (Some h) None None [])
  /\ (forall name, FindHosts h name = ([], None))
  /\ (forall name, FindReverse h name = ("", None))
  /\ (forall poll ticks, monitorHostEntries h poll ticks
                         = Done (mkPoller h zero_file [])).
Proof. repeat split. Qed.

(** C6: with a non-empty path, [NewHostsfile] returns an error exactly
    when the read of the file fails; it then returns that error and no
    instance, has parsed nothing and has started no poller.  When the
    read succeeds and the call returns, it returns an instance and no
    error. *)
Theorem NewHostsfile_fails_iff_read_fails
    (w : World) (path : string) (cfg : option Config) :
  path <> "" ->
  (construction_fails (NewHostsfile w path cfg)
   <-> exists e, read_of w path = inr e)
  /\ (forall e, read_of w path = inr e ->
        NewHostsfile w path cfg
        = Done (mkConstruction None (Some e) None [EvRead path]))
  /\ (forall data c, read_of w path = inl data ->
        NewHostsfile w path cfg = Done c ->
        failure c = None
        /\ instance c
           = Some (mkHostsfile cfg (newHostlist data)
                               (mkFileInfo 0 path zero_time))).
Proof.
  intros Hp. unfold NewHostsfile.
  rewrite (eqb_path_nonempty path Hp).
  destruct (read_of w path) as [data|e] eqn:Hr.
  - rewrite (loadHostEntries_success w _ data) by exact Hr.
    split; [|split].
    + split.
      * destruct cfg as [c|]; simpl; intros H; exfalso;
          [apply H; reflexivity | exact H].
      * intros [e He]. discriminate.
    + intros e He. discriminate.
    + intros data' c Hd Hc. injection Hd as <-.
      destruct cfg as [c0|]; simpl in Hc; [|discriminate].
      injection Hc as <-. split; reflexivity.
  - rewrite (loadHostEntries_failure w _ e) by exact Hr.
    split; [|split].
    + split.
      * intros _. now exists e.
      * intros _. simpl. discriminate.
    + intros e' He'. injection He' as <-. reflexivity.
    + intros data c Hd. discriminate.
Qed.

(** ** The poll loop *)

Lemma monitor_tick_stat_error (w : World) (p : Poller) (e : string) :
  stat_of w (path (hf p)) = inr e ->
  monitor_tick w p
  = Done (emit p [EvStat (path (hf p));
                  EvLog ("go-dnsmasq: error stating hostsfile: " +:+ e)]).
Proof. intros H. unfold monitor_tick, hostsFileMetadata. now rewrite H. Qed.

Lemma monitor_tick_unchanged (w : World) (p : Poller) :
  stat_of w (path (hf p)) = inl (mtime (hf p), size (hf p)) ->
  monitor_tick w p = Done (emit p [EvStat (path (hf p))]).
Proof.
  intros H. unfold monitor_tick, hostsFileMetadata, Time_Equal.
  now rewrite H, !Z.eqb_refl.
Qed.

Lemma monitor_tick_baseline (w : World) (p p' : Poller) (m : Time) (s : Z) :
  stat_of w (path (hf p)) = inl (m, s) ->
  monitor_tick w p = Done p' ->
  mtime (hf p') = m /\ size (hf p') = s.
Proof.
  intros H. unfold monitor_tick, hostsFileMetadata, Time_Equal.
  rewrite H.
  destruct ((mtime (hf p) =? m)%Z && (size (hf p) =? s)%Z) eqn:E.
  - intros [= <-]. apply andb_true_iff in E as [E1 E2].
    apply Z.eqb_eq in E1, E2. now split.
  - destruct (loadHostEntries w (self p)) as [[h1 err] evs].
    destruct (config h1); [|discriminate].
    intros [= <-]. now split.
Qed.

Lemma parses_app (a b : list Event) : parses (a ++ b) = parses a + parses b.
Proof. unfold parses. now rewrite filter_app, List.length_app. Qed.

Lemma reads_app (a b : list Event) : reads (a ++ b) = reads a + reads b.
Proof. unfold reads. now rewrite filter_app, List.length_app. Qed.

(** C8: a tick on which the stat fails changes neither the instance
    (table included) nor the baseline, reads and parses nothing, only
    reports the failure, and the loop goes on with the next tick. *)
Theorem stat_failure_keeps_state
    (w : World) (p : Poller) (e : string) (rest : list World) :
  stat_of w (path (hf p)) = inr e ->
  exists p',
    monitor_tick w p = Done p'
    /\ self p' = self p
    /\ hf p' = hf p
    /\ trace p' = trace p ++ [EvStat (path (hf p));
                              EvLog ("go-dnsmasq: error stating hostsfile: " +:+ e)]
    /\ reads (trace p') = reads (trace p)
    /\ parses (trace p') = parses (trace p)
    /\ run_ticks (w :: rest) p = run_ticks rest p'.
Proof.
  intros H. eexists. split; [apply monitor_tick_stat_error; exact H|].
  simpl. repeat split.
  - rewrite reads_app. unfold reads at 2. simpl. lia.
  - rewrite parses_app. unfold parses at 2. simpl. lia.
  - rewrite (monitor_tick_stat_error w p e H). reflexivity.
Qed.

(** C2 (amended): construction with a non-empty path leaves the
    baseline at its zero value (zero time, size 0).  On every tick on
    which the file's current modification time and size both equal the
    poller's baseline, nothing is read or parsed and the state is left
    as it is; a completed tick whose stat succeeds and on which the file
    can be read leaves the baseline at the values it observed. *)
Theorem unchanged_tick_skips_reload
    (w0 : World) (path0 : string) (cfg : option Config)
    (c : Construction) (h : Hostsfile) :
  path0 <> "" ->
  NewHostsfile w0 path0 cfg = Done c ->
  instance c = Some h ->
  file h = mkFileInfo 0 path0 zero_time
  /\ (forall w p,
        stat_of w (path (hf p)) = inl (mtime (hf p), size (hf p)) ->
        monitor_tick w p = Done (emit p [EvStat (path (hf p))])
        /\ reads (trace (emit p [EvStat (path (hf p))])) = reads (trace p)
        /\ parses (trace (emit p [EvStat (path (hf p))])) = parses (trace p))
  /\ (forall w p p' m s data,
        stat_of w (path (hf p)) = inl (m, s) ->
        read_of w (path (file (self p))) = inl data ->
        monitor_tick w p = Done p' ->
        mtime (hf p') = m /\ size (hf p') = s).
Proof.
  intros Hp Hc Hi. split; [|split].
  - unfold NewHostsfile in Hc. rewrite (eqb_path_nonempty _ Hp) in Hc.
    unfold loadHostEntries in Hc.
    destruct (ReadFile w0 _) as [data [err|]]; simpl in Hc.
    + injection Hc as <-. discriminate.
    + destruct cfg; simpl in Hc; [|discriminate].
      injection Hc as <-. simpl in Hi. injection Hi as <-. reflexivity.
  - intros w p H. split; [now apply monitor_tick_unchanged|].
    simpl. rewrite reads_app, parses_app.
    unfold reads at 2, parses at 2. simpl. lia.
  - intros w p p' m s data Hs _. now apply monitor_tick_baseline.
Qed.

(** A tick that finds the metadata changed: the table is replaced when
    the read succeeds and kept when it fails; the baseline is replaced
    by the observed values either way, since the failure branch only
    logs and falls through to the update of [h.file]. *)
Lemma monitor_tick_changed
    (w : World) (p : Poller) (m : Time) (s : Z) (c : Config) :
  stat_of w (path (hf p)) = inl (m, s) ->
  Time_Equal (mtime (hf p)) m && (size (hf p) =? s)%Z = false ->
  config (self p) = Some c ->
  exists p',
    monitor_tick w p = Done p'
    /\ hosts (self p')
       = match read_of w (path (file (self p))) with
         | inl data => newHostlist data
         | inr _ => hosts (self p)
         end
    /\ hf p' = mkFileInfo s (path (file (self p))) m
    /\ file (self p') = hf p'.
Proof.
  intros Hs Hne Hc. unfold monitor_tick, hostsFileMetadata.
  rewrite Hs, Hne. unfold loadHostEntries, ReadFile.
  destruct (read_of w (path (file (self p)))) as [data|e]; simpl;
    rewrite Hc; eexists; repeat split.
Qed.

(** ** Interleavings of lookups with a reload *)

Lemma nth_error_set_nth (ts : list Thread) (i : nat) (t : Thread) :
  nth_error ts i = Some t ->
  exists l1 l2,
    ts = l1 ++ t :: l2
    /\ List.length l1 = i
    /\ forall t', set_nth i t' ts = l1 ++ t' :: l2.
Proof.
  revert i. induction ts as [|x ts IH]; intros [|i] H; simpl in H;
    try discriminate.
  - injection H as ->. exists [], ts. repeat split.
  - destruct (IH i H) as (l1 & l2 & -> & Hl & Hs).
    exists (x :: l1), l2. repeat split; simpl; [congruence|].
    intros t'. now rewrite Hs.
Qed.

Lemma count_split (f : Thread -> bool) (l1 l2 : list Thread) (t : Thread) :
  count f (l1 ++ t :: l2)
  = count f l1 + (if f t then 1 else 0) + count f l2.
Proof.
  unfold count. rewrite filter_app, List.length_app. simpl.
  destruct (f t); simpl; lia.
Qed.

Lemma count_zero (f : Thread -> bool) (l : list Thread) :
  count f l = 0 -> Forall (fun t => f t = false) l.
Proof.
  unfold count. induction l as [|x l IH]; simpl; intros H; [constructor|].
  destruct (f x) eqn:E; simpl in H; [discriminate|].
  constructor; auto.
Qed.

Section Preservation.

Variable h0 : Hostsfile.
Variable cands : list hostlist.

(** Outside the read section nothing is assumed of the table. *)
Lemma thread_ok_outside (sh sh' : Shared) (t0 t : Thread) :
  in_read_section t = false ->
  thread_ok h0 cands sh t0 t -> thread_ok h0 cands sh' t0 t.
Proof. destruct t0, t; simpl; intros; try discriminate; auto. Qed.

Lemma thread_ok_same_table (sh sh' : Shared) (t0 t : Thread) :
  hosts (inst sh') = hosts (inst sh) ->
  thread_ok h0 cands sh t0 t -> thread_ok h0 cands sh' t0 t.
Proof. intros E. destruct t0, t; simpl; rewrite ?E; auto. Qed.

Lemma all_ok_same_table (sh sh' : Shared) (l0 l : list Thread) :
  hosts (inst sh') = hosts (inst sh) ->
  Forall2 (thread_ok h0 cands sh) l0 l ->
  Forall2 (thread_ok h0 cands sh') l0 l.
Proof.
  intros E H. induction H; constructor; auto.
  now apply (thread_ok_same_table sh).
Qed.

Lemma all_ok_outside (sh sh' : Shared) (l0 l : list Thread) :
  count in_read_section l = 0 ->
  Forall2 (thread_ok h0 cands sh) l0 l ->
  Forall2 (thread_ok h0 cands sh') l0 l.
Proof.
  intros Hc H. apply count_zero in Hc.
  induction H; constructor; inversion Hc; subst; auto.
  now apply (thread_ok_outside sh).
Qed.

Lemma firstn_snoc (l : hostlist) (i : nat) (x : hostname) :
  nth_error l i = Some x -> firstn (S i) l = firstn i l ++ [x].
Proof.
  revert i. induction l as [|y l IH]; intros [|i] H; simpl in *;
    try discriminate.
  - now injection H as ->.
  - now rewrite (IH i H).
Qed.

Lemma firstn_whole (l : hostlist) (i : nat) :
  nth_error l i = None -> firstn i l = l.
Proof. intros H. apply firstn_all2. now apply nth_error_None. Qed.

Ltac finish := repeat split; auto; try lia; try discriminate.

Lemma thread_step_ok (sh sh' : Shared) (t0 t t' : Thread) :
  thread_ok h0 cands sh t0 t ->
  thread_step sh t = Some (sh', t') ->
  file (inst sh) = file h0 ->
  In (hosts (inst sh)) cands ->
  (forall w data, t0 = LD_call w ->
                  read_of w (path (file h0)) = inl data ->
                  In (newHostlist data) cands) ->
  (in_read_section t = true -> 1 <= rcount sh) ->
  (in_write_section t = true -> wlocked sh = true) ->
  (wlocked sh = true -> rcount sh = 0) ->
  thread_ok h0 cands sh' t0 t'
  /\ file (inst sh') = file h0
  /\ In (hosts (inst sh')) cands
  /\ (hosts (inst sh') = hosts (inst sh) \/ rcount sh = 0)
  /\ rcount sh' + (if in_read_section t then 1 else 0)
     = rcount sh + (if in_read_section t' then 1 else 0)
  /\ (if wlocked sh' then 1 else 0) + (if in_write_section t then 1 else 0)
     = (if wlocked sh then 1 else 0) + (if in_write_section t' then 1 else 0)
  /\ (wlocked sh' = true -> rcount sh' = 0).
Proof.
  intros Hok Hstep Hfile Hin Hcov Hr Hw Hex.
  destruct t; simpl in Hstep.
  - (* FH_call *)
    injection Hstep as <- <-.
    destruct t0; simpl in Hok; try contradiction. subst.
    simpl. finish.
  - (* FH_RLock *)
    destruct (wlocked sh) eqn:Ew; [discriminate|].
    injection Hstep as <- <-.
    destruct t0; simpl in Hok; try contradiction. subst.
    simpl. rewrite ?Ew. finish.
  - (* FH_range *)
    destruct t0; simpl in Hok; try contradiction.
    destruct Hok as [-> ->].
    destruct (nth_error (hosts (inst sh)) i) as [x|] eqn:En;
      injection Hstep as <- <-; simpl.
    + assert (fold_left (FindHosts_step (TrimSuffix name0 "."))
                        (firstn (S i) (hosts (inst sh))) []
              = FindHosts_step (TrimSuffix name0 ".")
                  (fold_left (FindHosts_step (TrimSuffix name0 "."))
                             (firstn i (hosts (inst sh))) []) x).
      { rewrite (firstn_snoc _ _ _ En), fold_left_app. reflexivity. }
      finish.
    + assert (exists T, In T cands
                /\ Some (FH_ret (fold_left (FindHosts_step (TrimSuffix name0 "."))
                                   (firstn i (hosts (inst sh))) []) None)
                   = answer_on h0 T (FH_call name0)).
      { exists (hosts (inst sh)). split; [exact Hin|].
        unfold answer_on, FindHosts. simpl.
        now rewrite (firstn_whole _ _ En). }
      finish.
  - (* FH_RUnlock *)
    injection Hstep as <- <-.
    destruct t0; simpl in Hok; try contradiction.
    specialize (Hr eq_refl).
    simpl. finish.
    intros Hl. specialize (Hex Hl). lia.
  - discriminate.
  - (* FR_call *)
    destruct (wlocked sh) eqn:Ew; [discriminate|].
    injection Hstep as <- <-.
    destruct t0; simpl in Hok; try contradiction. subst.
    simpl. rewrite ?Ew. finish.
  - (* FR_range *)
    destruct t0; simpl in Hok; try contradiction.
    destruct Hok as [-> Hpre].
    destruct (nth_error (hosts (inst sh)) i) as [x|] eqn:En.
    + destruct (reverse_matches name0 x) eqn:Em;
        injection Hstep as <- <-; cbn -[firstn].
      * assert (exists T, In T cands
                  /\ Some (FR_ret (Fqdn (domain x)) None)
                     = answer_on h0 T (FR_call name0)).
        { exists (hosts (inst sh)). split; [exact Hin|].
          unfold answer_on, FindReverse. simpl.
          destruct (nth_error_split _ _ En) as (l1 & l2 & El & Hlen).
          rewrite FindReverse_loop_find, El.
          rewrite (find_first name0 l1 l2 x); auto.
          intros y Hy. apply Hpre. rewrite El, <- Hlen.
          rewrite firstn_app, Nat.sub_diag, firstn_all. simpl.
          rewrite app_nil_r. exact Hy. }
        finish.
      * finish.
        intros y Hy. rewrite (firstn_snoc _ _ _ En) in Hy.
        apply in_app_or in Hy as [Hy|[<-|[]]]; auto.
    + injection Hstep as <- <-; simpl.
      assert (exists T, In T cands
                /\ Some (FR_ret "" None) = answer_on h0 T (FR_call name0)).
      { exists (hosts (inst sh)). split; [exact Hin|].
        unfold answer_on, FindReverse. simpl.
        rewrite FindReverse_loop_find, find_nothing; auto.
        rewrite (firstn_whole _ _ En) in Hpre. exact Hpre. }
      finish.
  - (* FR_RUnlock *)
    injection Hstep as <- <-.
    destruct t0; simpl in Hok; try contradiction.
    specialize (Hr eq_refl).
    simpl. finish.
    intros Hl. specialize (Hex Hl). lia.
  - discriminate.
  - (* LD_call *)
    destruct t0; simpl in Hok; try contradiction. subst w0.
    unfold ReadFile in Hstep. rewrite Hfile in Hstep.
    destruct (read_of w (path (file h0))) as [data|e] eqn:Er;
      injection Hstep as <- <-; simpl.
    + assert (In (newHostlist data) cands) by (apply (Hcov w data); auto).
      finish.
    + finish.
  - (* LD_Lock *)
    destruct (wlocked sh) eqn:Ew; [discriminate|].
    simpl in Hstep.
    destruct (rcount sh =? 0)%nat eqn:Ec; [|discriminate]. simpl in Hstep.
    apply Nat.eqb_eq in Ec.
    injection Hstep as <- <-.
    destruct t0; simpl in Hok; try contradiction.
    simpl. finish.
  - (* LD_assign *)
    injection Hstep as <- <-.
    destruct t0; simpl in Hok; try contradiction.
    specialize (Hw eq_refl). specialize (Hex Hw).
    simpl. finish.
  - (* LD_Unlock *)
    injection Hstep as <- <-.
    destruct t0; simpl in Hok; try contradiction.
    specialize (Hw eq_refl).
    simpl. rewrite ?Hw. finish.
  - discriminate.
Qed.

Lemma Inv_step (ts0 : list Thread) (st : State) (i : nat) :
  covers h0 cands ts0 ->
  Inv h0 cands ts0 st -> Inv h0 cands ts0 (sched_step st i).
Proof.
  intros Hcov HI. destruct st as [sh ts]. unfold sched_step.
  destruct (nth_error ts i) as [t|] eqn:En; [|exact HI].
  destruct (thread_step sh t) as [[sh' t']|] eqn:Es; [|exact HI].
  destruct HI as (Hall & Hfile & Hin & Hrc & Hwc & Hex). simpl in *.
  destruct (nth_error_set_nth ts i t En) as (l1 & l2 & -> & _ & Hset).
  rewrite Hset. clear Hset En.
  apply Forall2_app_inv_r in Hall as (l01 & l02' & H1 & H2 & ->).
  inversion H2 as [|t0 ? l02 ? Hok H3]; subst. clear H2.
  rewrite count_split in Hrc, Hwc.
  destruct (thread_step_ok sh sh' t0 t t' Hok Es Hfile Hin)
    as (Hok' & Hfile' & Hin' & Htab & Hr' & Hw' & Hex').
  - intros w data -> Hread. apply (Hcov w data); [|exact Hread].
    apply in_or_app. right. now left.
  - intros E. rewrite E in Hrc. lia.
  - intros E. rewrite E in Hwc. destruct (wlocked sh); [reflexivity|lia].
  - exact Hex.
  - unfold Inv. simpl. rewrite !count_split. repeat split; auto.
    + destruct Htab as [Htab|Hz].
      * apply Forall2_app; [|constructor]; auto;
          now apply (all_ok_same_table sh).
      * apply Forall2_app; [|constructor]; auto;
          apply (all_ok_outside sh); auto; lia.
    + lia.
    + lia.
Qed.

Lemma Inv_run (ts0 : list Thread) (sched : list nat) (st : State) :
  covers h0 cands ts0 ->
  Inv h0 cands ts0 st -> Inv h0 cands ts0 (run sched st).
Proof.
  intros Hcov. unfold run. revert st.
  induction sched as [|i sched IH]; intros st HI; simpl; [exact HI|].
  apply IH. now apply Inv_step.
Qed.

Lemma count_pos (f : Thread -> bool) (l : list Thread) :
  0 < count f l -> exists i t, nth_error l i = Some t /\ f t = true.
Proof.
  unfold count. induction l as [|x l IH]; simpl; [lia|].
  destruct (f x) eqn:E.
  - intros _. now exists 0, x.
  - intros H. destruct (IH H) as (i & t & Hi & Ht). now exists (S i), t.
Qed.

(** When a thread can step: always, except that [RLock] waits for the
    write lock to be free, [Lock] for every lock to be free, and a thread
    that has returned stays where it is. *)
Lemma thread_step_enabled (sh : Shared) (t : Thread) :
  match t with
  | FH_RLock _ | FR_call _ => wlocked sh = false
  | LD_Lock _ => wlocked sh = false /\ rcount sh = 0
  | FH_ret _ _ | FR_ret _ _ | LD_ret _ => False
  | _ => True
  end ->
  exists st, thread_step sh t = Some st.
Proof.
  destruct t; simpl; intros H; try contradiction; try (rewrite H); eauto.
  - destruct (nth_error (hosts (inst sh)) i); eauto.
  - destruct (nth_error (hosts (inst sh)) i) as [x|]; [|eauto].
    destruct (reverse_matches name x); eauto.
  - destruct (ReadFile w (path (file (inst sh)))) as [data [e|]]; eauto.
  - destruct H as [-> ->]. simpl. eauto.
Qed.

(** The mutex never leaves every thread waiting: as long as a thread
    has not left its function, some thread can take a step. *)
Lemma Inv_progress (ts0 : list Thread) (sh : Shared) (ts : list Thread) :
  Inv h0 cands ts0 (sh, ts) ->
  (exists t, In t ts /\ finished t = false) ->
  exists i t st, nth_error ts i = Some t /\ thread_step sh t = Some st.
Proof.
  intros (_ & _ & _ & Hrc & Hwc & _) (t & Hin & Hfin). simpl in *.
  assert (Hsec : forall f,
             (forall r, f r = true ->
                        in_read_section r = true
                        \/ in_write_section r = true) ->
             0 < count f ts ->
             exists i t st, nth_error ts i = Some t
                            /\ thread_step sh t = Some st).
  { intros f Hf Hpos.
    destruct (count_pos _ _ Hpos) as (i & r & Hi & Hr).
    destruct (thread_step_enabled sh r) as [st Hst].
    - destruct (Hf r Hr) as [E|E]; destruct r; try discriminate; exact I.
    - now exists i, r, st. }
  destruct (wlocked sh) eqn:Ew.
  - apply (Hsec in_write_section); [auto | lia].
  - destruct (rcount sh) as [|n] eqn:Ec.
    + apply In_nth_error in Hin as [i Hi].
      destruct (thread_step_enabled sh t) as [st Hst].
      * destruct t; try discriminate; auto.
      * now exists i, t, st.
    + apply (Hsec in_read_section); [auto | lia].
Qed.

End Preservation.

Lemma count_calls (f : Thread -> bool) (l : list Thread) :
  (forall t, is_reader_call t = true -> f t = false) ->
  Forall (fun t => is_reader_call t = true) l ->
  count f l = 0.
Proof.
  intros Hf H. unfold count. induction H as [|t l Ht _ IH]; simpl; auto.
  now rewrite (Hf t Ht).
Qed.

(** The tables that can be installed during a race of one reload with
    lookups: the one in place and the one parsed from the file, when
    the file can be read. *)
Lemma Inv_reload_race (h : Hostsfile) (w : World) (readers : list Thread) :
  Forall (fun t => is_reader_call t = true) readers ->
  let cands :=
    hosts h :: match read_of w (path (file h)) with
               | inl data => [newHostlist data]
               | inr _ => []
               end in
  covers h cands (LD_call w :: readers)
  /\ Inv h cands (LD_call w :: readers) (reload_race h w readers).
Proof.
  intros Hr cands. split.
  - intros w' data [E|Hin] Hread.
    + injection E as <-. subst cands. rewrite Hread. right. now left.
    + rewrite Forall_forall in Hr. specialize (Hr _ Hin). discriminate.
  - unfold Inv, reload_race. simpl. repeat split.
    + constructor; [reflexivity|].
      induction Hr as [|t l Ht _ IH]; constructor; auto.
      destruct t; try discriminate; reflexivity.
    + now left.
    + change (0 = count in_read_section ([] ++ LD_call w :: readers)).
      rewrite count_split. simpl.
      rewrite (count_calls in_read_section readers); auto.
      intros []; simpl; congruence.
    + change (count in_write_section ([] ++ LD_call w :: readers) = 0).
      rewrite count_split. simpl.
      rewrite (count_calls in_write_section readers); auto.
      intros []; simpl; congruence.
Qed.

Lemma Forall2_nth_error_pair {A B : Type} (R : A -> B -> Prop)
      (l : list A) (l' : list B) (i : nat) (a : A) (b : B) :
  Forall2 R l l' ->
  nth_error l i = Some a -> nth_error l' i = Some b -> R a b.
Proof.
  intros H. revert i. induction H as [|x y l l' Hxy _ IH]; intros [|i];
    simpl; try discriminate.
  - now intros [= ->] [= ->].
  - apply IH.
Qed.

(** C9: while one reload runs, under every interleaving of the steps of
    the loader and of any number of [FindHosts] and [FindReverse]
    calls, the installed table is the old one or the newly parsed one,
    and every call that has returned holds the result that the same
    call gives on the old table alone or on the new table alone. *)
Theorem lookups_observe_one_table
    (h : Hostsfile) (w : World) (readers : list Thread) (sched : list nat)
    (i : nat) (call t : Thread) :
  Forall (fun c => is_reader_call c = true) readers ->
  nth_error readers i = Some call ->
  nth_error (snd (run sched (reload_race h w readers))) (S i) = Some t ->
  returned t = true ->
  let final := run sched (reload_race h w readers) in
  (hosts (inst (fst final)) = hosts h
   \/ exists data, read_of w (path (file h)) = inl data
                   /\ hosts (inst (fst final)) = newHostlist data)
  /\ (Some t = answer_on h (hosts h) call
      \/ exists data, read_of w (path (file h)) = inl data
                      /\ Some t = answer_on h (newHostlist data) call).
Proof.
  intros Hr Hcall Ht Hret final.
  destruct (Inv_reload_race h w readers Hr) as [Hcov HI].
  apply (Inv_run _ _ _ sched _ Hcov) in HI. fold final in HI, Ht.
  destruct HI as (Hall & _ & Hin & _).
  assert (Hc : forall T,
             In T (hosts h :: match read_of w (path (file h)) with
                              | inl data => [newHostlist data]
                              | inr _ => []
                              end) ->
             T = hosts h
             \/ exists data, read_of w (path (file h)) = inl data
                             /\ T = newHostlist data).
  { intros T [<-|HT]; [now left|].
    destruct (read_of w (path (file h))) as [data|e]; [|contradiction].
    destruct HT as [<-|[]]. right. now exists data. }
  split.
  - apply Hc. exact Hin.
  - assert (Hok := Forall2_nth_error_pair _ _ _ (S i) call t Hall Hcall Ht).
    rewrite Forall_forall in Hr.
    assert (Hcl := Hr call (nth_error_In _ _ Hcall)).
    destruct call; try discriminate; destruct t; try discriminate;
      simpl in Hok; try contradiction;
      destruct Hok as (T & HT & Ha);
      (destruct (Hc T HT) as [->|(data & Hd & ->)];
       [left; exact Ha | right; exists data; split; [exact Hd | exact Ha]]).
Qed.

(** ** Further properties of the constructor and the poll loop *)

Lemma verbose_listing_logs_only (h : Hostsfile) :
  reads (verbose_listing h) = 0 /\ parses (verbose_listing h) = 0.
Proof.
  unfold verbose_listing, reads, parses. simpl.
  induction (hosts h) as [|e l [IH1 IH2]]; simpl; auto.
Qed.

(** With a readable file and a configuration, [NewHostsfile] returns an
    instance holding the parsed table and no error, has read the file
    once and parsed it once whether or not it lists the entries, and
    reaches the [go] statement exactly when [Poll] is positive. *)
Theorem NewHostsfile_success
    (w : World) (path0 : string) (c : Config) (data : list byte) :
  path0 <> "" ->
  read_of w path0 = inl data ->
  exists r,
    NewHostsfile w path0 (Some c) = Done r
    /\ instance r = Some (mkHostsfile (Some c) (newHostlist data)
                                      (mkFileInfo 0 path0 zero_time))
    /\ failure r = None
    /\ poller r = (if (0 <? Poll c)%Z then Some (Poll c) else None)
    /\ reads (events r) = 1
    /\ parses (events r) = 1.
Proof.
  intros Hp Hr. unfold NewHostsfile.
  rewrite (eqb_path_nonempty _ Hp).
  rewrite (loadHostEntries_success w _ data) by exact Hr.
  simpl. eexists. split; [reflexivity|]. simpl.
  split; [reflexivity|]. split; [reflexivity|]. split; [reflexivity|].
  match goal with
  | |- context [verbose_listing ?h] =>
      destruct (verbose_listing_logs_only h) as [H1 H2]
  end.
  change (EvRead path0 :: EvParse data :: ?l)
    with ([EvRead path0; EvParse data] ++ l).
  rewrite reads_app, parses_app.
  destruct (Verbose c); [rewrite H1, H2|]; split; reflexivity.
Qed.

(** [NewHostsfile] panics exactly when it is given no configuration
    together with a non-empty path whose file can be read: the [nil]
    pointer is first dereferenced after the load. *)
Theorem NewHostsfile_nil_config (w : World) (path0 : string) :
  (exists reason, NewHostsfile w path0 None = Panic reason)
  <-> (path0 <> "" /\ exists data, read_of w path0 = inl data).
Proof.
  unfold NewHostsfile.
  destruct (String.eqb_spec path0 "") as [->|Hp].
  - split; [intros [r H]; discriminate | intros [H _]; congruence].
  - unfold loadHostEntries, ReadFile. simpl.
    destruct (read_of w path0) as [data|e]; simpl.
    + split; [intros _; split; [exact Hp | now exists data]|].
      intros _. eexists. reflexivity.
    + split; [intros [r H]; discriminate|].
      intros [_ [data H]]. discriminate.
Qed.


Lemma changed_test (a m : Time) (b s : Z) :
  (a <> m \/ b <> s) -> Time_Equal a m && (b =? s)%Z = false.
Proof.
  unfold Time_Equal. intros [H|H].
  - apply Z.eqb_neq in H. now rewrite H.
  - apply Z.eqb_neq in H. rewrite H. apply andb_false_r.
Qed.

(** A tick that finds the metadata changed and can read the file
    installs the parse of the file's content, takes the observed
    metadata as the new baseline, reads once and parses once; lookups
    answer from the new content from then on. *)
Theorem changed_tick_reloads
    (w : World) (p : Poller) (m : Time) (s : Z) (data : list byte)
    (c : Config) :
  stat_of w (path (hf p)) = inl (m, s) ->
  (mtime (hf p) <> m \/ size (hf p) <> s) ->
  read_of w (path (file (self p))) = inl data ->
  config (self p) = Some c ->
  exists p',
    monitor_tick w p = Done p'
    /\ hosts (self p') = newHostlist data
    /\ hf p' = mkFileInfo s (path (file (self p))) m
    /\ file (self p') = hf p'
    /\ config (self p') = config (self p)
    /\ reads (trace p') = S (reads (trace p))
    /\ parses (trace p') = S (parses (trace p))
    /\ (forall name,
          FindHosts (self p') name
          = (addresses_of (TrimSuffix name ".") (newHostlist data), None)).
Proof.
  intros Hs Hne Hr Hc. unfold monitor_tick, hostsFileMetadata.
  rewrite Hs, (changed_test _ _ _ _ Hne).
  rewrite (loadHostEntries_success w _ data) by exact Hr.
  simpl. rewrite Hc. eexists. split; [reflexivity|]. simpl.
  repeat split.
  - exact Hc.
  - rewrite reads_app. unfold reads at 2. simpl.
    destruct (Verbose c); simpl; lia.
  - rewrite parses_app. unfold parses at 2. simpl.
    destruct (Verbose c); simpl; lia.
  - intros name. apply FindHosts_spec.
Qed.

(** What one tick can do to the poller, whatever the file system says. *)
Lemma monitor_tick_cases (w : World) (p p' : Poller) :
  monitor_tick w p = Done p' ->
  exists evs,
    trace p' = trace p ++ EvStat (path (hf p)) :: evs
    /\ stats evs = 0
    /\ parses evs <= reads evs <= 1
    /\ config (self p') = config (self p)
    /\ path (file (self p')) = path (file (self p))
    /\ ((self p' = self p /\ hf p' = hf p) \/ hf p' = file (self p'))
    /\ (hosts (self p') = hosts (self p)
        \/ exists data, read_of w (path (file (self p))) = inl data
                        /\ hosts (self p') = newHostlist data).
Proof.
  unfold monitor_tick, hostsFileMetadata.
  destruct (stat_of w (path (hf p))) as [[m s]|e].
  - destruct (Time_Equal (mtime (hf p)) m && (size (hf p) =? s)%Z).
    + intros [= <-]. exists []. simpl.
      repeat split; auto.
    + unfold loadHostEntries, ReadFile.
      destruct (read_of w (path (file (self p)))) as [data|e] eqn:Er; simpl;
        destruct (config (self p)) as [c|] eqn:Ec; try discriminate;
        intros [= <-]; simpl.
      * exists (EvRead (path (file (self p))) :: EvParse data
                 :: (if Verbose c
                     then [EvLog "go-dnsmasq: reloaded changed hostsfile"]
                     else [])).
        unfold stats, parses, reads.
        destruct (Verbose c); simpl; repeat split; auto.
        all: right; exists data; auto.
      * exists (EvRead (path (file (self p)))
                 :: EvLog ("go-dnsmasq: error opening hostsfile: " +:+ e)
                 :: (if Verbose c
                     then [EvLog "go-dnsmasq: reloaded changed hostsfile"]
                     else [])).
        unfold stats, parses, reads.
        destruct (Verbose c); simpl; repeat split; auto.
  - intros [= <-]. eexists. simpl. split; [reflexivity|].
    unfold stats, parses, reads. simpl. repeat split; auto.
Qed.

Lemma stats_app (a b : list Event) : stats (a ++ b) = stats a + stats b.
Proof. unfold stats. now rewrite filter_app, List.length_app. Qed.

Lemma tick_keeps_identity (w : World) (p p1 : Poller) :
  hf p = file (self p) ->
  monitor_tick w p = Done p1 ->
  hf p1 = file (self p1) /\ path (hf p1) = path (hf p).
Proof.
  intros Hhf Ht.
  destruct (monitor_tick_cases w p p1 Ht) as (_ & _ & _ & _ & _ & Hp & Hs & _).
  destruct Hs as [[E1 E2]|E].
  - rewrite E1, E2. auto.
  - split; [exact E|]. rewrite E, Hhf. exact Hp.
Qed.

(** Along any run of ticks the poller's copy [hf] stays equal to
    [h.file], and neither the path nor the configuration changes: the
    loop only ever writes the table, the modification time and the
    size. *)
Theorem run_ticks_keeps_identity (ticks : list World) (p p' : Poller) :
  hf p = file (self p) ->
  run_ticks ticks p = Done p' ->
  hf p' = file (self p')
  /\ path (hf p') = path (hf p)
  /\ config (self p') = config (self p).
Proof.
  revert p. induction ticks as [|w ticks IH]; intros p Hhf Hrun; simpl in Hrun.
  - injection Hrun as <-. auto.
  - destruct (monitor_tick w p) as [p1|r] eqn:Ht; [|discriminate].
    destruct (monitor_tick_cases w p p1 Ht)
      as (_ & _ & _ & _ & Hc & Hp & Hs & _).
    assert (Hhf1 : hf p1 = file (self p1)).
    { destruct Hs as [[E1 E2]|E]; [|exact E]. now rewrite E1, E2. }
    destruct (IH p1 Hhf1 Hrun) as (H1 & H2 & H3).
    split; [exact H1|]. split; [|congruence].
    rewrite H2, Hhf1, Hhf. exact Hp.
Qed.

(** Every tick stats the file exactly once and reads it at most once,
    and the parser only ever runs on a file that was just read. *)
Theorem run_ticks_accounting (ticks : list World) (p p' : Poller) :
  run_ticks ticks p = Done p' ->
  exists evs,
    trace p' = trace p ++ evs
    /\ stats evs = List.length ticks
    /\ parses evs <= reads evs
    /\ reads evs <= List.length ticks.
Proof.
  revert p. induction ticks as [|w ticks IH]; intros p Hrun; simpl in Hrun.
  - injection Hrun as <-. exists []. rewrite app_nil_r. repeat split; auto.
  - destruct (monitor_tick w p) as [p1|r] eqn:Ht; [|discriminate].
    destruct (monitor_tick_cases w p p1 Ht) as (e1 & Ht1 & Hs1 & Hpr1 & _).
    destruct (IH p1 Hrun) as (e2 & Ht2 & Hs2 & Hp2 & Hr2).
    exists ((EvStat (path (hf p)) :: e1) ++ e2).
    split; [rewrite Ht2, Ht1; now rewrite <- app_assoc|].
    rewrite stats_app, parses_app, reads_app.
    change (EvStat (path (hf p)) :: e1) with ([EvStat (path (hf p))] ++ e1).
    rewrite stats_app, parses_app, reads_app.
    change (stats [EvStat (path (hf p))]) with 1.
    change (parses [EvStat (path (hf p))]) with 0.
    change (reads [EvStat (path (hf p))]) with 0.
    cbn [List.length]. lia.
Qed.

Lemma run_ticks_total (ticks : list World) (p : Poller) :
  config (self p) <> None -> exists p', run_ticks ticks p = Done p'.
Proof.
  revert p. induction ticks as [|w ticks IH]; intros p Hc; simpl.
  - now exists p.
  - destruct (monitor_tick w p) as [p1|r] eqn:Ht.
    + apply IH.
      destruct (monitor_tick_cases w p p1 Ht) as (_ & _ & _ & _ & E & _).
      now rewrite E.
    + exfalso. revert Ht. unfold monitor_tick, hostsFileMetadata.
      destruct (stat_of w (path (hf p))) as [[m s]|e]; [|discriminate].
      destruct (Time_Equal (mtime (hf p)) m && (size (hf p) =? s)%Z);
        [discriminate|].
      unfold loadHostEntries.
      destruct (ReadFile w (path (file (self p)))) as [data [e|]]; simpl;
        destruct (config (self p)); try discriminate; congruence.
Qed.

(** The poller that [NewHostsfile] starts never panics, whatever the
    file system does at the ticks. *)
Theorem started_poller_never_panics
    (w : World) (path0 : string) (cfg : option Config) (r : Construction)
    (h : Hostsfile) (poll : Z) (ticks : list World) :
  NewHostsfile w path0 cfg = Done r ->
  instance r = Some h ->
  poller r = Some poll ->
  (0 < poll)%Z
  /\ path (file h) <> ""
  /\ exists p, monitorHostEntries h poll ticks = Done p.
Proof.
  intros Hc Hi Hp. unfold NewHostsfile in Hc.
  destruct (String.eqb_spec path0 "") as [->|Hne].
  - injection Hc as <-. discriminate.
  - unfold loadHostEntries in Hc.
    destruct (ReadFile w _) as [data [e|]]; simpl in Hc.
    + injection Hc as <-. discriminate.
    + destruct cfg as [c|]; simpl in Hc; [|discriminate].
      injection Hc as <-. simpl in Hi, Hp. injection Hi as <-.
      destruct (Z.ltb_spec 0 (Poll c)) as [Hpos|]; [|discriminate].
      injection Hp as <-. split; [exact Hpos|]. split; [exact Hne|].
      unfold monitorHostEntries. simpl.
      rewrite (eqb_path_nonempty _ Hne).
      destruct (wrap64 (Poll c * Second) <=? 0)%Z; [eauto|].
      apply run_ticks_total. simpl. discriminate.
Qed.

(** The table after any run of ticks is the table the run started with
    or the parse of what one of the ticks read: the loop installs
    nothing else. *)
Theorem run_ticks_table_provenance (ticks : list World) (p p' : Poller) :
  run_ticks ticks p = Done p' ->
  hosts (self p') = hosts (self p)
  \/ exists w data,
      In w ticks
      /\ read_of w (path (file (self p))) = inl data
      /\ hosts (self p') = newHostlist data.
Proof.
  revert p. induction ticks as [|w ticks IH]; intros p Hrun; simpl in Hrun.
  - injection Hrun as <-. now left.
  - destruct (monitor_tick w p) as [p1|r] eqn:Ht; [|discriminate].
    destruct (monitor_tick_cases w p p1 Ht)
      as (_ & _ & _ & _ & _ & Hp & _ & Hh).
    destruct (IH p1 Hrun) as [E|(w' & data & Hin & Hr & E)].
    + destruct Hh as [E1|(data & Hr & E1)].
      * left. congruence.
      * right. exists w, data. repeat split; [now left | exact Hr | congruence].
    + right. exists w', data. rewrite <- Hp.
      repeat split; [now right | exact Hr | exact E].
Qed.

(** Two ticks in a row that see the same metadata: whatever the first
    one did, the second one does nothing but the stat. *)
Theorem second_tick_with_same_metadata_skips
    (w1 w2 : World) (p p1 : Poller) (m : Time) (s : Z) :
  hf p = file (self p) ->
  stat_of w1 (path (hf p)) = inl (m, s) ->
  monitor_tick w1 p = Done p1 ->
  stat_of w2 (path (hf p)) = inl (m, s) ->
  monitor_tick w2 p1 = Done (emit p1 [EvStat (path (hf p))]).
Proof.
  intros Hhf Hs1 Ht1 Hs2.
  destruct (monitor_tick_baseline w1 p p1 m s Hs1 Ht1) as [Hm Hsz].
  destruct (tick_keeps_identity w1 p p1 Hhf Ht1) as [_ Hp].
  rewrite <- Hp. apply monitor_tick_unchanged.
  rewrite Hp, Hm, Hsz. exact Hs2.
Qed.

Lemma wrap64_in_range (z : Z) :
  (- 2 ^ 63 <= z < 2 ^ 63)%Z -> wrap64 z = z.
Proof.
  intros H. unfold wrap64.
  rewrite Z.mod_small by lia. lia.
Qed.

(** The tick period is [poll] seconds as an [int64] number of
    nanoseconds.  For a poll interval of 1 to 9223372036 seconds the
    product fits and every tick is served; from 9223372037 to
    18446744073 seconds it wraps to a negative duration, for which
    [time.Tick] gives a [nil] channel, and no tick is ever served. *)
Theorem poll_interval_overflow
    (h : Hostsfile) (poll : Z) (ticks : list World) :
  path (file h) <> "" ->
  ((1 <= poll <= 9223372036)%Z ->
   monitorHostEntries h poll ticks
   = run_ticks ticks (mkPoller h (file h) []))
  /\ ((9223372037 <= poll <= 18446744073)%Z ->
      monitorHostEntries h poll ticks = Done (mkPoller h (file h) [])).
Proof.
  intros Hp. unfold monitorHostEntries. rewrite (eqb_path_nonempty _ Hp).
  unfold Second. split; intros Hr.
  - rewrite wrap64_in_range by lia.
    destruct (Z.leb_spec (poll * 1000000000) 0); [lia | reflexivity].
  - assert (E : wrap64 (poll * 1000000000) = (poll * 1000000000 - 2 ^ 64)%Z).
    { unfold wrap64.
      replace (poll * 1000000000 + 2 ^ 63)%Z
        with ((poll * 1000000000 - 2 ^ 63) + 1 * 2 ^ 64)%Z by lia.
      rewrite Z.mod_add by lia. rewrite Z.mod_small by lia. lia. }
    rewrite E.
    destruct (Z.leb_spec (poll * 1000000000 - 2 ^ 64) 0); [reflexivity | lia].
Qed.

(** ** Further properties of the lookups *)

(** The forward lookup on a table made of two parts is the lookup on the
    first part followed by the lookup on the second: order is table
    order and an address listed several times is returned several
    times. *)
Theorem FindHosts_app (h : Hostsfile) (t1 t2 : hostlist) (name : string) :
  fst (FindHosts (set_hosts h (t1 ++ t2)) name)
  = fst (FindHosts (set_hosts h t1) name)
    ++ fst (FindHosts (set_hosts h t2) name).
Proof.
  rewrite !FindHosts_spec. simpl. unfold addresses_of.
  now rewrite filter_app, map_app.
Qed.

Lemma Fqdn_has_dot (s : string) : HasSuffix (Fqdn s) "." = true.
Proof.
  unfold Fqdn. rewrite IsFqdn_HasSuffix.
  destruct (HasSuffix s ".") eqn:E; [exact E | apply HasSuffix_app].
Qed.

Lemma Fqdn_nonempty (s : string) : Fqdn s <> "".
Proof.
  intros E. pose proof (Fqdn_has_dot s) as H. rewrite E in H. discriminate.
Qed.

Lemma find_none_iff (name : string) (l : hostlist) :
  find (reverse_matches name) l = None
  <-> forall e, In e l -> reverse_matches name e = false.
Proof.
  split; [|apply find_nothing].
  intros H e He. now apply (find_none _ _ H).
Qed.

(** The reverse lookup returns the empty string exactly when no entry
    matches, and every other result ends in ".": the empty result is
    never the name of an entry. *)
Theorem FindReverse_empty_iff_no_match (h : Hostsfile) (name : string) :
  (fst (FindReverse h name) = ""
   <-> forall e, In e (hosts h) -> reverse_matches name e = false)
  /\ (fst (FindReverse h name) = ""
      \/ HasSuffix (fst (FindReverse h name)) "." = true).
Proof.
  unfold FindReverse. simpl. rewrite FindReverse_loop_find.
  rewrite <- find_none_iff.
  destruct (find (reverse_matches name) (hosts h)) as [e|].
  - split; [|right; apply Fqdn_has_dot].
    split; [intros E; now apply Fqdn_nonempty in E | discriminate].
  - split; [tauto | now left].
Qed.

Lemma reverse_matches_name (name : string) (e : hostname) :
  reverse_matches name e = true ->
  fst (ReverseAddr (IP_String (ip e))) = name.
Proof.
  unfold reverse_matches.
  destruct (ReverseAddr (IP_String (ip e))) as [r err]. simpl.
  intros H. apply String.eqb_eq in H. now subst.
Qed.

(** Reverse then forward: on a table of domains without trailing ".",
    the name that a reverse lookup returns, looked up forward, gives at
    least one address, and among them one whose reverse name is the
    query. *)
Theorem reverse_then_forward (h : Hostsfile) (name : string) :
  no_trailing_dot (hosts h) ->
  fst (FindReverse h name) <> "" ->
  exists a,
    In a (fst (FindHosts h (fst (FindReverse h name))))
    /\ fst (ReverseAddr (IP_String a)) = name.
Proof.
  intros Hnd Hne.
  assert (E : fst (FindReverse h name)
              = match find (reverse_matches name) (hosts h) with
                | Some e => Fqdn (domain e)
                | None => ""
                end).
  { unfold FindReverse. simpl. apply FindReverse_loop_find. }
  rewrite E in *. clear E.
  destruct (find (reverse_matches name) (hosts h)) as [e|] eqn:Ef;
    [|congruence].
  apply find_some in Ef as [Hin Hm].
  unfold no_trailing_dot in Hnd. rewrite Forall_forall in Hnd.
  rewrite (Fqdn_restores _ (Hnd e Hin)).
  exists (ip e). split; [|now apply reverse_matches_name].
  rewrite FindHosts_spec, TrimSuffix_app. simpl. unfold addresses_of.
  apply in_map. apply filter_In. split; [exact Hin|].
  apply String.eqb_refl.
Qed.

(** ** Further properties of the interleavings *)

Lemma count_of_calls (f : Thread -> bool) (l : list Thread) :
  (forall t, is_call t = true -> f t = false) ->
  Forall (fun t => is_call t = true) l ->
  count f l = 0.
Proof.
  intros Hf H. unfold count. induction H as [|t l Ht _ IH]; simpl; auto.
  now rewrite (Hf t Ht).
Qed.

Lemma Inv_race (h : Hostsfile) (ts : list Thread) :
  Forall (fun t => is_call t = true) ts ->
  covers h (hosts h :: loaded_tables h ts) ts
  /\ Inv h (hosts h :: loaded_tables h ts) ts (race h ts).
Proof.
  intros Hc. split.
  - intros w data Hin Hr. right. unfold loaded_tables.
    apply in_flat_map. exists (LD_call w). split; [exact Hin|].
    rewrite Hr. now left.
  - unfold Inv, race. simpl. repeat split.
    + generalize (hosts h :: loaded_tables h ts). intros cands.
      induction Hc as [|t l Ht _ IH]; constructor; auto.
      destruct t; try discriminate; reflexivity.
    + now left.
    + symmetry. apply count_of_calls; auto. intros []; simpl; congruence.
    + apply count_of_calls; auto. intros []; simpl; congruence.
Qed.

(** Any number of reloads racing with any number of lookups: every
    lookup that has returned holds the answer that the same call gives
    on one single table, the initial one or the one parsed by one of the
    reloads. *)
Theorem lookups_during_reloads
    (h : Hostsfile) (ts : list Thread) (sched : list nat)
    (i : nat) (call t : Thread) :
  Forall (fun c => is_call c = true) ts ->
  nth_error ts i = Some call ->
  nth_error (snd (run sched (race h ts))) i = Some t ->
  returned t = true ->
  exists T,
    In T (hosts h :: loaded_tables h ts)
    /\ Some t = answer_on h T call.
Proof.
  intros Hc Hcall Ht Hret.
  destruct (Inv_race h ts Hc) as [Hcov HI].
  apply (Inv_run _ _ _ sched _ Hcov) in HI.
  destruct HI as (Hall & _).
  assert (Hok := Forall2_nth_error_pair _ _ _ i call t Hall Hcall Ht).
  destruct call, t; simpl in Hok, Hret; try contradiction;
    try discriminate; exact Hok.
Qed.

Lemma count_all_finished (f : Thread -> bool) (l : list Thread) :
  (forall t, finished t = true -> f t = false) ->
  Forall (fun t => finished t = true) l ->
  count f l = 0.
Proof.
  intros Hf H. unfold count. induction H as [|t l Ht _ IH]; simpl; auto.
  now rewrite (Hf t Ht).
Qed.

(** The mutex is used in balance.  In every state of every interleaving
    the number of read locks held is the number of lookups between their
    [RLock] and [RUnlock], the write lock is held exactly when one
    reload is between its [Lock] and [Unlock], and then no lookup is
    inside its scan; once every thread has returned the mutex is free. *)
Theorem mutex_is_balanced
    (h : Hostsfile) (ts : list Thread) (sched : list nat) :
  Forall (fun c => is_call c = true) ts ->
  let st := run sched (race h ts) in
  rcount (fst st) = count in_read_section (snd st)
  /\ count in_write_section (snd st) = (if wlocked (fst st) then 1 else 0)
  /\ (wlocked (fst st) = true -> count in_read_section (snd st) = 0)
  /\ (Forall (fun t => finished t = true) (snd st) ->
      rcount (fst st) = 0 /\ wlocked (fst st) = false).
Proof.
  intros Hc st.
  destruct (Inv_race h ts Hc) as [Hcov HI].
  apply (Inv_run _ _ _ sched _ Hcov) in HI. fold st in HI.
  destruct HI as (_ & _ & _ & Hr & Hw & Hex).
  split; [exact Hr|]. split; [exact Hw|]. split.
  - intros E. rewrite <- Hr. now apply Hex.
  - intros Hf.
    rewrite (count_all_finished in_read_section) in Hr;
      [|intros []; simpl; congruence | exact Hf].
    rewrite (count_all_finished in_write_section) in Hw;
      [|intros []; simpl; congruence | exact Hf].
    split; [exact Hr|]. destruct (wlocked (fst st)); [discriminate|reflexivity].
Qed.

(** No interleaving ends in a deadlock: as long as some thread has not
    returned, some thread can take its next step. *)
Theorem race_never_deadlocks
    (h : Hostsfile) (ts : list Thread) (sched : list nat) (t : Thread) :
  Forall (fun c => is_call c = true) ts ->
  In t (snd (run sched (race h ts))) ->
  finished t = false ->
  exists i u next,
    nth_error (snd (run sched (race h ts))) i = Some u
    /\ thread_step (fst (run sched (race h ts))) u = Some next.
Proof.
  intros Hc Hin Hf.
  destruct (Inv_race h ts Hc) as [Hcov HI].
  apply (Inv_run _ _ _ sched _ Hcov) in HI.
  destruct (run sched (race h ts)) as [sh ts'] eqn:E. simpl in *.
  apply (Inv_progress _ _ ts sh ts' HI). now exists t.
Qed.

(** *** A thread that runs without interference *)

Lemma set_nth_same (ts : list Thread) (i : nat) (t : Thread) :
  nth_error ts i = Some t -> set_nth i t ts = ts.
Proof.
  revert i. induction ts as [|x ts IH]; intros [|i] H; simpl in *;
    try discriminate; try reflexivity.
  - now injection H as ->.
  - now rewrite IH.
Qed.

Lemma nth_error_set_nth_eq (ts : list Thread) (i : nat) (t t' : Thread) :
  nth_error ts i = Some t -> nth_error (set_nth i t' ts) i = Some t'.
Proof.
  revert i. induction ts as [|x ts IH]; intros [|i] H; simpl in *;
    try discriminate; auto.
Qed.

Lemma set_nth_twice (ts : list Thread) (i : nat) (t t' : Thread) :
  set_nth i t' (set_nth i t ts) = set_nth i t' ts.
Proof.
  revert i. induction ts as [|x ts IH]; intros [|i]; simpl; auto.
  now rewrite IH.
Qed.

Lemma run_alone (n : nat) (sh : Shared) (ts : list Thread) (i : nat)
      (t : Thread) :
  nth_error ts i = Some t ->
  run (repeat i n) (sh, ts)
  = (fst (steps_alone n sh t), set_nth i (snd (steps_alone n sh t)) ts).
Proof.
  unfold run. revert sh ts t.
  induction n as [|n IH]; intros sh ts t Ht; simpl.
  - now rewrite set_nth_same.
  - rewrite Ht. destruct (thread_step sh t) as [[sh' t']|] eqn:Es.
    + rewrite (IH sh' (set_nth i t' ts) t')
        by (now apply (nth_error_set_nth_eq ts i t)).
      now rewrite set_nth_twice.
    + rewrite (IH sh ts t Ht). clear IH.
      destruct n; simpl; [reflexivity|]. now rewrite Es.
Qed.

Lemma steps_alone_stuck (n : nat) (sh : Shared) (t : Thread) :
  thread_step sh t = None -> steps_alone n sh t = (sh, t).
Proof. intros H. destruct n; simpl; [reflexivity|]. now rewrite H. Qed.

Lemma skipn_nth (l : hostlist) (k : nat) (x : hostname) :
  nth_error l k = Some x -> skipn k l = x :: skipn (S k) l.
Proof.
  revert k. induction l as [|y l IH]; intros [|k] H; simpl in *;
    try discriminate.
  - now injection H as ->.
  - now apply IH.
Qed.

Lemma skipn_past (l : hostlist) (k : nat) :
  nth_error l k = None -> skipn k l = [].
Proof. intros H. apply skipn_all2. now apply nth_error_None. Qed.

Lemma FH_range_alone (name : string) (d : nat) :
  forall k addrs n sh,
    List.length (hosts (inst sh)) - k <= d ->
    d + 2 <= n ->
    steps_alone n sh (FH_range name k addrs)
    = (unlock_read sh,
       FH_ret (fold_left (FindHosts_step name) (skipn k (hosts (inst sh)))
                         addrs) None).
Proof.
  induction d as [|d IH]; intros k addrs n sh Hd Hn;
    (destruct n as [|n]; [lia|]); simpl;
    destruct (nth_error (hosts (inst sh)) k) as [x|] eqn:En.
  - assert (k < List.length (hosts (inst sh)))
      by (apply nth_error_Some; congruence).
    lia.
  - destruct n as [|n]; [lia|]. simpl.
    rewrite steps_alone_stuck by reflexivity.
    now rewrite (skipn_past _ _ En).
  - rewrite (IH (S k) _ n sh) by lia.
    now rewrite (skipn_nth _ _ _ En).
  - destruct n as [|n]; [lia|]. simpl.
    rewrite steps_alone_stuck by reflexivity.
    now rewrite (skipn_past _ _ En).
Qed.

Lemma FR_range_alone (name : string) (d : nat) :
  forall k n sh,
    List.length (hosts (inst sh)) - k <= d ->
    d + 2 <= n ->
    steps_alone n sh (FR_range name k)
    = (unlock_read sh,
       FR_ret (FindReverse_loop name (skipn k (hosts (inst sh))) "") None).
Proof.
  induction d as [|d IH]; intros k n sh Hd Hn;
    (destruct n as [|n]; [lia|]); simpl;
    destruct (nth_error (hosts (inst sh)) k) as [x|] eqn:En.
  - assert (k < List.length (hosts (inst sh)))
      by (apply nth_error_Some; congruence).
    lia.
  - destruct n as [|n]; [lia|]. simpl.
    rewrite steps_alone_stuck by reflexivity.
    now rewrite (skipn_past _ _ En).
  - rewrite (skipn_nth _ _ _ En). simpl.
    destruct (reverse_matches name x).
    + destruct n as [|n]; [lia|]. simpl.
      now rewrite steps_alone_stuck by reflexivity.
    + now rewrite (IH (S k) n sh) by lia.
  - destruct n as [|n]; [lia|]. simpl.
    rewrite steps_alone_stuck by reflexivity.
    now rewrite (skipn_past _ _ En).
Qed.

(** A [FindHosts] call that is scheduled without interruption on an
    instance whose write lock is free returns what the function
    computes on the installed table, after at most four steps more than
    the table has entries, and leaves the shared state as it found it. *)
Theorem FindHosts_runs_alone
    (sh : Shared) (ts : list Thread) (i : nat) (name : string) (n : nat) :
  wlocked sh = false ->
  nth_error ts i = Some (FH_call name) ->
  List.length (hosts (inst sh)) + 4 <= n ->
  run (repeat i n) (sh, ts)
  = (sh, set_nth i (FH_ret (fst (FindHosts (inst sh) name))
                           (snd (FindHosts (inst sh) name))) ts).
Proof.
  intros Hw Ht Hn. rewrite (run_alone n sh ts i _ Ht).
  destruct n as [|[|n]]; try lia. simpl. rewrite Hw.
  rewrite (FH_range_alone _ (List.length (hosts (inst sh)))) by (simpl; lia).
  simpl. unfold unlock_read. simpl. rewrite <- Hw.
  destruct sh; reflexivity.
Qed.

(** The same for [FindReverse], after at most three steps more than the
    table has entries. *)
Theorem FindReverse_runs_alone
    (sh : Shared) (ts : list Thread) (i : nat) (name : string) (n : nat) :
  wlocked sh = false ->
  nth_error ts i = Some (FR_call name) ->
  List.length (hosts (inst sh)) + 3 <= n ->
  run (repeat i n) (sh, ts)
  = (sh, set_nth i (FR_ret (fst (FindReverse (inst sh) name))
                           (snd (FindReverse (inst sh) name))) ts).
Proof.
  intros Hw Ht Hn. rewrite (run_alone n sh ts i _ Ht).
  destruct n as [|n]; try lia. simpl. rewrite Hw.
  rewrite (FR_range_alone _ (List.length (hosts (inst sh)))) by (simpl; lia).
  simpl. unfold unlock_read. simpl. rewrite <- Hw.
  destruct sh; reflexivity.
Qed.

(** A reload that is scheduled without interruption on a free mutex ends
    within four steps with the instance and the error that
    [loadHostEntries] computes, and with the mutex free again. *)
Theorem loadHostEntries_runs_alone
    (sh : Shared) (ts : list Thread) (i : nat) (w : World) (n : nat) :
  wlocked sh = false ->
  rcount sh = 0 ->
  nth_error ts i = Some (LD_call w) ->
  4 <= n ->
  run (repeat i n) (sh, ts)
  = (mkShared (fst (fst (loadHostEntries w (inst sh)))) 0 false,
     set_nth i (LD_ret (snd (fst (loadHostEntries w (inst sh))))) ts).
Proof.
  intros Hw Hr Ht Hn. rewrite (run_alone n sh ts i _ Ht).
  do 4 (destruct n as [|n]; [lia|]).
  unfold loadHostEntries. simpl.
  destruct (ReadFile w (path (file (inst sh)))) as [data [e|]]; simpl.
  - rewrite <- Hw, <- Hr. destruct sh; reflexivity.
  - rewrite Hw, Hr. simpl.
    now rewrite steps_alone_stuck by reflexivity.
Qed.

(** A tick on which the file cannot be read never touches the table,
    whatever the stat says: lookups keep their answers and the parser
    does not run. *)
Theorem unreadable_file_keeps_table
    (w : World) (p p' : Poller) (e : string) (name : string) :
  read_of w (path (file (self p))) = inr e ->
  monitor_tick w p = Done p' ->
  hosts (self p') = hosts (self p)
  /\ FindHosts (self p') name = FindHosts (self p) name
  /\ FindReverse (self p') name = FindReverse (self p) name
  /\ parses (trace p') = parses (trace p).
Proof.
  intros Hr. unfold monitor_tick, hostsFileMetadata.
  destruct (stat_of w (path (hf p))) as [[m s]|e'].
  - destruct (Time_Equal (mtime (hf p)) m && (size (hf p) =? s)%Z).
    + intros [= <-]. simpl. rewrite parses_app. repeat split.
      unfold parses at 2. simpl. lia.
    + rewrite (loadHostEntries_failure w _ e Hr).
      destruct (config (self p)) as [c|]; [|discriminate].
      intros [= <-]. simpl. rewrite parses_app. repeat split.
      unfold parses at 2. simpl. destruct (Verbose c); simpl; lia.
  - intros [= <-]. simpl. rewrite parses_app. repeat split.
    unfold parses at 2. simpl. lia.
Qed.

End Package.

(** ** The documentation's example and the claims at concrete inputs *)

Example FindHosts_example :
  FindHosts example_instance "foo.example.com" = ([ip_10_0_0_5], None)
  /\ FindHosts example_instance "foo.example.com." = ([ip_10_0_0_5], None)
  /\ FindHosts example_instance "bar.example.com" = ([ip_10_0_0_5], None)
  /\ FindHosts example_instance "somehost" = ([], None).
Proof. repeat split. Qed.

Example FindReverse_example :
  FindReverse IPv4.IP_String IPv4.ReverseAddr example_instance
              "5.0.0.10.in-addr.arpa."
  = ("foo.example.com.", None).
Proof. vm_compute. reflexivity. Qed.

(** C1, as stated, fails: the upper-case spelling of a stored domain is
    a case variant of it, and the lookup returns nothing for it while it
    returns the address for the lower-case spelling. *)
Lemma FindHosts_upper_case_query_differs :
  variant_of "FOO.EXAMPLE.COM." "foo.example.com"
  /\ FindHosts example_instance "FOO.EXAMPLE.COM." = ([], None)
  /\ FindHosts example_instance "foo.example.com" = ([ip_10_0_0_5], None)
  /\ FindHosts example_instance "FOO.EXAMPLE.COM."
     <> FindHosts example_instance "foo.example.com".
Proof. repeat split. discriminate. Qed.

Lemma FindHosts_exact_case_witness :
  variant_of "FOO.EXAMPLE.COM." "foo.example.com"
  /\ HasSuffix "foo.example.com" "." = false
  /\ lower_cased (hosts example_instance)
  /\ FindHosts example_instance "FOO.EXAMPLE.COM." = ([], None).
Proof.
  assert (Hv : variant_of "FOO.EXAMPLE.COM." "foo.example.com")
    by reflexivity.
  assert (Hd : HasSuffix "foo.example.com" "." = false) by reflexivity.
  assert (Hl : lower_cased (hosts example_instance))
    by (repeat constructor).
  split; [exact Hv|]. split; [exact Hd|]. split; [exact Hl|].
  exact (FindHosts_exact_case example_instance _ _ Hv Hd Hl).
Defined.

Lemma FindHosts_returns_matching_addresses_witness :
  FindHosts example_instance "foo.example.com." = ([ip_10_0_0_5], None)
  /\ (forall n, "bar.example.com" <> n +:+ ".")
  /\ FindHosts example_instance "bar.example.com" = ([ip_10_0_0_5], None)
  /\ (forall e, In e (hosts example_instance) -> domain e <> "somehost")
  /\ FindHosts example_instance "somehost." = ([], None).
Proof.
  assert (Hb : forall n, "bar.example.com" <> n +:+ ".")
    by (apply no_separator_at_end; reflexivity).
  assert (Hs : forall e, In e (hosts example_instance) ->
                         domain e <> "somehost").
  { intros e [<-|[<-|[<-|[]]]]; discriminate. }
  split.
  { exact (proj1 (FindHosts_returns_matching_addresses
                    example_instance "foo.example.com.")
                 "foo.example.com" eq_refl). }
  split; [exact Hb|]. split.
  { exact (proj1 (proj2 (FindHosts_returns_matching_addresses
                           example_instance "bar.example.com")) Hb). }
  split; [exact Hs|].
  exact (proj1 (proj2 (proj2 (proj2 (FindHosts_returns_matching_addresses
                                       example_instance "somehost."))))
               "somehost" (or_introl eq_refl) Hs).
Defined.

Lemma FindHosts_strips_one_separator_witness :
  HasSuffix "foo.example.com" "." = false
  /\ no_trailing_dot (hosts example_instance)
  /\ FindHosts example_instance "foo.example.com."
     = FindHosts example_instance "foo.example.com"
  /\ FindHosts example_instance "foo.example.com.." = ([], None).
Proof.
  assert (Hn : HasSuffix "foo.example.com" "." = false) by reflexivity.
  assert (Ht : no_trailing_dot (hosts example_instance))
    by (repeat constructor).
  destruct (FindHosts_strips_one_separator example_instance
              "foo.example.com" Hn) as (H1 & _ & H3).
  split; [exact Hn|]. split; [exact Ht|]. split; [exact H1 | exact (H3 Ht)].
Defined.

Lemma FindReverse_returns_first_match_witness :
  hosts example_instance
  = [mkHostname "localhost" ip_127_0_0_1]
      ++ mkHostname "foo.example.com" ip_10_0_0_5
      :: [mkHostname "bar.example.com" ip_10_0_0_5]
  /\ FindReverse IPv4.IP_String IPv4.ReverseAddr example_instance
                 "5.0.0.10.in-addr.arpa."
     = ("foo.example.com.", None).
Proof.
  split; [reflexivity|].
  refine (proj2 (proj1 (proj2 (FindReverse_returns_first_match
            IPv4.IP_String IPv4.ReverseAddr example_instance
            "5.0.0.10.in-addr.arpa."))
          [mkHostname "localhost" ip_127_0_0_1]
          (mkHostname "foo.example.com" ip_10_0_0_5)
          [mkHostname "bar.example.com" ip_10_0_0_5]
          eq_refl _ _) _).
  - intros x [<-|[]]. vm_compute. reflexivity.
  - vm_compute. reflexivity.
  - reflexivity.
Defined.

Lemma NewHostsfile_fails_iff_read_fails_witness :
  hosts_path <> ""
  /\ read_of world_missing hosts_path = inr "no such file or directory"
  /\ NewHostsfile IPv4.newHostlist IPv4.IP_String world_missing hosts_path
                  polling_config
     = Done (mkConstruction None (Some "no such file or directory") None
                            [EvRead hosts_path]).
Proof.
  assert (Hp : hosts_path <> "") by discriminate.
  split; [exact Hp|]. split; [reflexivity|].
  exact (proj1 (proj2 (NewHostsfile_fails_iff_read_fails
                         IPv4.newHostlist IPv4.IP_String world_missing
                         hosts_path polling_config Hp))
               "no such file or directory" eq_refl).
Defined.

Lemma stat_failure_keeps_state_witness :
  stat_of world_missing (path (hf (mkPoller loaded_instance
                                            (file loaded_instance) [])))
  = inr "no such file or directory"
  /\ exists p',
      monitor_tick IPv4.newHostlist world_missing
                   (mkPoller loaded_instance (file loaded_instance) [])
      = Done p'
      /\ self p' = loaded_instance
      /\ hf p' = file loaded_instance
      /\ parses (trace p') = 0.
Proof.
  split; [reflexivity|].
  destruct (stat_failure_keeps_state IPv4.newHostlist world_missing
              (mkPoller loaded_instance (file loaded_instance) [])
              "no such file or directory" [] eq_refl)
    as (p' & Ht & Hs & Hh & _ & _ & Hp & _).
  exists p'. split; [exact Ht|]. split; [exact Hs|]. split; [exact Hh|].
  exact Hp.
Defined.

(** C2, as stated, fails: after construction on the example file the
    baseline is not the file's modification time and size, and the first
    tick reads and parses the file again although it has not changed. *)
Lemma first_tick_reloads_unchanged_file :
  NewHostsfile IPv4.newHostlist IPv4.IP_String example_world hosts_path
               polling_config
  = Done (mkConstruction (Some constructed_instance) None (Some 30%Z)
                         [EvRead hosts_path; EvParse IPv4.example_file])
  /\ hostsFileMetadata example_world hosts_path
     = (1700000000%Z, 61%Z, None)
  /\ (mtime (file constructed_instance), size (file constructed_instance))
     = (zero_time, 0%Z)
  /\ monitorHostEntries IPv4.newHostlist constructed_instance 30
                        [example_world]
     = Done (mkPoller loaded_instance (file loaded_instance)
                      [EvStat hosts_path; EvRead hosts_path;
                       EvParse IPv4.example_file])
  /\ reads [EvStat hosts_path; EvRead hosts_path;
            EvParse IPv4.example_file] = 1
  /\ parses [EvStat hosts_path; EvRead hosts_path;
             EvParse IPv4.example_file] = 1.
Proof.
  split; [vm_compute; reflexivity|].
  split; [reflexivity|].
  split; [reflexivity|].
  split; [vm_compute; reflexivity|].
  split; reflexivity.
Qed.

Lemma unchanged_tick_skips_reload_witness :
  hosts_path <> ""
  /\ NewHostsfile IPv4.newHostlist IPv4.IP_String example_world hosts_path
                  polling_config
     = Done (mkConstruction
               (Some constructed_instance)
               None (Some 30%Z)
               [EvRead hosts_path; EvParse IPv4.example_file])
  /\ monitor_tick IPv4.newHostlist example_world
                  (mkPoller loaded_instance (file loaded_instance) [])
     = Done (mkPoller loaded_instance (file loaded_instance)
                      [EvStat hosts_path])
  /\ read_of changed_world (path (file (self example_poller)))
     = inl changed_file
  /\ exists p',
      monitor_tick IPv4.newHostlist changed_world example_poller = Done p'
      /\ mtime (hf p') = 1700000500%Z
      /\ size (hf p') = 25%Z.
Proof.
  assert (Hp : hosts_path <> "") by discriminate.
  assert (Hc : NewHostsfile IPv4.newHostlist IPv4.IP_String example_world
                            hosts_path polling_config
               = Done (mkConstruction
                         (Some constructed_instance)
                         None (Some 30%Z)
                         [EvRead hosts_path; EvParse IPv4.example_file]))
    by (vm_compute; reflexivity).
  pose proof (unchanged_tick_skips_reload
                IPv4.newHostlist IPv4.IP_String example_world hosts_path
                polling_config _ _ Hp Hc eq_refl) as (_ & Hskip & Hbase).
  split; [exact Hp|]. split; [exact Hc|]. split.
  { exact (proj1 (Hskip example_world
                        (mkPoller loaded_instance (file loaded_instance) [])
                        eq_refl)). }
  split; [reflexivity|].
  eexists.
  assert (Ht : monitor_tick IPv4.newHostlist changed_world example_poller
               = Done _) by (vm_compute; reflexivity).
  split; [exact Ht|].
  exact (Hbase changed_world example_poller _ 1700000500%Z 25%Z changed_file
               eq_refl eq_refl Ht).
Defined.

(** C3: on a tick that finds the metadata changed and cannot read the
    file, the table is kept, but the baseline is replaced by the
    observed modification time and size all the same; the next tick,
    on which the file is readable and has these metadata, is taken for
    "no updates" and the changed file is not loaded. *)
Theorem failed_reload_advances_baseline :
  exists p,
    monitor_tick IPv4.newHostlist (world_unreadable 1700000500%Z 25%Z)
                 (mkPoller loaded_instance (file loaded_instance) [])
    = Done p
    /\ hosts (self p) = example_hosts
    /\ file loaded_instance = mkFileInfo 61%Z hosts_path 1700000000%Z
    /\ hf p = mkFileInfo 25%Z hosts_path 1700000500%Z
    /\ file (self p) = mkFileInfo 25%Z hosts_path 1700000500%Z
    /\ trace p = [EvStat hosts_path; EvRead hosts_path;
                  EvLog "go-dnsmasq: error opening hostsfile: permission denied"]
    /\ monitor_tick IPv4.newHostlist changed_world p
       = Done (emit p [EvStat hosts_path]).
Proof.
  eexists. split; [vm_compute; reflexivity|].
  repeat split.
Qed.

Example IPv4_parser_example :
  IPv4.newHostlist IPv4.example_file = example_hosts
  /\ IPv4.newHostlist changed_file = [mkHostname "foo.example.com" ip_10_0_0_9].
Proof. split; vm_compute; reflexivity. Qed.

(** The example race: the first lookup, which the reload overlaps, gets
    the old table's answer; the second, which runs after it, the new
    table's. *)
Example race_example :
  run IPv4.newHostlist IPv4.IP_String IPv4.ReverseAddr race_schedule
      (reload_race loaded_instance changed_world race_readers)
  = (mkShared (set_hosts loaded_instance
                         [mkHostname "foo.example.com" ip_10_0_0_9]) 0 false,
     [LD_ret None; FH_ret [ip_10_0_0_5] None;
      FR_ret "foo.example.com." None]).
Proof. vm_compute. reflexivity. Qed.

Lemma lookups_observe_one_table_witness :
  Forall (fun c => is_reader_call c = true) race_readers
  /\ nth_error race_readers 0 = Some (FH_call "foo.example.com.")
  /\ nth_error
       (snd (run IPv4.newHostlist IPv4.IP_String IPv4.ReverseAddr
                 race_schedule
                 (reload_race loaded_instance changed_world race_readers)))
       1
     = Some (FH_ret [ip_10_0_0_5] None)
  /\ returned (FH_ret [ip_10_0_0_5] None) = true
  /\ (Some (FH_ret [ip_10_0_0_5] None)
      = answer_on IPv4.IP_String IPv4.ReverseAddr loaded_instance
                  (hosts loaded_instance) (FH_call "foo.example.com.")
      \/ exists data,
          read_of changed_world (path (file loaded_instance)) = inl data
          /\ Some (FH_ret [ip_10_0_0_5] None)
             = answer_on IPv4.IP_String IPv4.ReverseAddr loaded_instance
                         (IPv4.newHostlist data) (FH_call "foo.example.com.")).
Proof.
  assert (Hr : Forall (fun c => is_reader_call c = true) race_readers)
    by (repeat constructor).
  assert (Ht : nth_error
                 (snd (run IPv4.newHostlist IPv4.IP_String IPv4.ReverseAddr
                           race_schedule
                           (reload_race loaded_instance changed_world
                                        race_readers)))
                 1
               = Some (FH_ret [ip_10_0_0_5] None))
    by (vm_compute; reflexivity).
  split; [exact Hr|]. split; [reflexivity|]. split; [exact Ht|].
  split; [reflexivity|].
  exact (proj2 (lookups_observe_one_table
                  IPv4.newHostlist IPv4.IP_String IPv4.ReverseAddr
                  loaded_instance changed_world race_readers race_schedule
                  0 (FH_call "foo.example.com.") (FH_ret [ip_10_0_0_5] None)
                  Hr eq_refl Ht eq_refl)).
Defined.

(** ** The further properties at concrete inputs *)

Lemma NewHostsfile_success_witness :
  hosts_path <> ""
  /\ read_of example_world hosts_path = inl IPv4.example_file
  /\ exists r,
      NewHostsfile IPv4.newHostlist IPv4.IP_String example_world hosts_path
                   (Some (mkConfig 30%Z true)) = Done r
      /\ instance r
         = Some (mkHostsfile (Some (mkConfig 30%Z true))
                             (IPv4.newHostlist IPv4.example_file)
                             (mkFileInfo 0%Z hosts_path zero_time))
      /\ failure r = None
      /\ poller r = Some 30%Z
      /\ reads (events r) = 1
      /\ parses (events r) = 1.
Proof.
  assert (Hp : hosts_path <> "") by discriminate.
  split; [exact Hp|]. split; [reflexivity|].
  exact (NewHostsfile_success IPv4.newHostlist IPv4.IP_String example_world
           hosts_path (mkConfig 30%Z true) IPv4.example_file Hp eq_refl).
Defined.


Lemma changed_tick_reloads_witness :
  stat_of changed_world (path (hf example_poller))
  = inl (1700000500%Z, 25%Z)
  /\ exists p',
      monitor_tick IPv4.newHostlist changed_world example_poller = Done p'
      /\ hosts (self p') = IPv4.newHostlist changed_file
      /\ hf p' = mkFileInfo 25%Z hosts_path 1700000500%Z.
Proof.
  split; [reflexivity|].
  destruct (changed_tick_reloads IPv4.newHostlist changed_world
              example_poller 1700000500%Z 25%Z changed_file
              (mkConfig 30 false) eq_refl)
    as (p' & Ht & Hh & Hf & _).
  - left. discriminate.
  - reflexivity.
  - reflexivity.
  - exists p'. split; [exact Ht|]. split; [exact Hh | exact Hf].
Defined.

Lemma run_ticks_keeps_identity_witness :
  hf example_poller = file (self example_poller)
  /\ exists p',
      run_ticks IPv4.newHostlist example_ticks example_poller = Done p'
      /\ hf p' = file (self p')
      /\ path (hf p') = hosts_path
      /\ config (self p') = polling_config.
Proof.
  split; [reflexivity|].
  eexists. split; [vm_compute; reflexivity|].
  apply (run_ticks_keeps_identity IPv4.newHostlist example_ticks
           example_poller); [reflexivity | vm_compute; reflexivity].
Defined.

Lemma run_ticks_accounting_witness :
  exists p' evs,
    run_ticks IPv4.newHostlist example_ticks example_poller = Done p'
    /\ trace p' = trace example_poller ++ evs
    /\ stats evs = 4
    /\ parses evs <= reads evs
    /\ reads evs <= 4.
Proof.
  eexists.
  assert (H : run_ticks IPv4.newHostlist example_ticks example_poller
              = Done _) by (vm_compute; reflexivity).
  destruct (run_ticks_accounting IPv4.newHostlist example_ticks
              example_poller _ H) as (evs & H1 & H2 & H3 & H4).
  exists evs. split; [exact H|]. split; [exact H1|]. split; [exact H2|].
  split; [exact H3 | exact H4].
Defined.

Lemma started_poller_never_panics_witness :
  NewHostsfile IPv4.newHostlist IPv4.IP_String example_world hosts_path
               polling_config
  = Done (mkConstruction (Some constructed_instance) None (Some 30%Z)
                         [EvRead hosts_path; EvParse IPv4.example_file])
  /\ exists p,
      monitorHostEntries IPv4.newHostlist constructed_instance 30%Z
                         example_ticks = Done p.
Proof.
  assert (Hc : NewHostsfile IPv4.newHostlist IPv4.IP_String example_world
                            hosts_path polling_config
               = Done (mkConstruction (Some constructed_instance) None
                         (Some 30%Z)
                         [EvRead hosts_path; EvParse IPv4.example_file]))
    by (vm_compute; reflexivity).
  split; [exact Hc|].
  exact (proj2 (proj2 (started_poller_never_panics
                  IPv4.newHostlist IPv4.IP_String example_world hosts_path
                  polling_config _ constructed_instance 30%Z example_ticks
                  Hc eq_refl eq_refl))).
Defined.

Lemma run_ticks_table_provenance_witness :
  exists p',
    run_ticks IPv4.newHostlist example_ticks example_poller = Done p'
    /\ (hosts (self p') = hosts (self example_poller)
        \/ exists w data,
            In w example_ticks
            /\ read_of w (path (file (self example_poller))) = inl data
            /\ hosts (self p') = IPv4.newHostlist data).
Proof.
  eexists.
  assert (H : run_ticks IPv4.newHostlist example_ticks example_poller
              = Done _) by (vm_compute; reflexivity).
  split; [exact H|].
  exact (run_ticks_table_provenance IPv4.newHostlist example_ticks
           example_poller _ H).
Defined.

Lemma second_tick_with_same_metadata_skips_witness :
  exists p1,
    monitor_tick IPv4.newHostlist changed_world example_poller = Done p1
    /\ monitor_tick IPv4.newHostlist changed_world p1
       = Done (emit p1 [EvStat hosts_path]).
Proof.
  eexists.
  assert (H : monitor_tick IPv4.newHostlist changed_world example_poller
              = Done _) by (vm_compute; reflexivity).
  split; [exact H|].
  exact (second_tick_with_same_metadata_skips IPv4.newHostlist
           changed_world changed_world example_poller _
           1700000500%Z 25%Z eq_refl eq_refl H eq_refl).
Defined.

Lemma poll_interval_overflow_witness :
  path (file loaded_instance) <> ""
  /\ monitorHostEntries IPv4.newHostlist loaded_instance 9223372036%Z
                        example_ticks
     = run_ticks IPv4.newHostlist example_ticks example_poller
  /\ monitorHostEntries IPv4.newHostlist loaded_instance 9223372037%Z
                        example_ticks
     = Done example_poller.
Proof.
  assert (Hp : path (file loaded_instance) <> "") by discriminate.
  split; [exact Hp|]. split.
  - apply (proj1 (poll_interval_overflow IPv4.newHostlist loaded_instance
                    9223372036%Z example_ticks Hp)). lia.
  - apply (proj2 (poll_interval_overflow IPv4.newHostlist loaded_instance
                    9223372037%Z example_ticks Hp)). lia.
Defined.

Lemma unreadable_file_keeps_table_witness :
  read_of (world_unreadable 1700000900%Z 70%Z)
          (path (file (self example_poller)))
  = inr "permission denied"
  /\ exists p',
      monitor_tick IPv4.newHostlist (world_unreadable 1700000900%Z 70%Z)
                   example_poller = Done p'
      /\ hosts (self p') = example_hosts
      /\ parses (trace p') = 0.
Proof.
  split; [reflexivity|].
  eexists.
  assert (H : monitor_tick IPv4.newHostlist (world_unreadable 1700000900%Z 70%Z)
                           example_poller = Done _)
    by (vm_compute; reflexivity).
  split; [exact H|].
  destruct (unreadable_file_keeps_table
              IPv4.newHostlist IPv4.IP_String IPv4.ReverseAddr
              (world_unreadable 1700000900%Z 70%Z) example_poller _
              "permission denied" "localhost" eq_refl H)
    as (H1 & _ & _ & H4).
  split; [exact H1 | exact H4].
Defined.

Lemma reverse_then_forward_witness :
  no_trailing_dot (hosts example_instance)
  /\ fst (FindReverse IPv4.IP_String IPv4.ReverseAddr example_instance
                      "5.0.0.10.in-addr.arpa.") <> ""
  /\ exists a,
      In a (fst (FindHosts example_instance
                   (fst (FindReverse IPv4.IP_String IPv4.ReverseAddr
                           example_instance "5.0.0.10.in-addr.arpa."))))
      /\ fst (IPv4.ReverseAddr (IPv4.IP_String a))
         = "5.0.0.10.in-addr.arpa.".
Proof.
  assert (Hn : no_trailing_dot (hosts example_instance))
    by (repeat constructor).
  assert (He : fst (FindReverse IPv4.IP_String IPv4.ReverseAddr
                      example_instance "5.0.0.10.in-addr.arpa.") <> "")
    by (vm_compute; discriminate).
  split; [exact Hn|]. split; [exact He|].
  exact (reverse_then_forward IPv4.IP_String IPv4.ReverseAddr
           example_instance "5.0.0.10.in-addr.arpa." Hn He).
Defined.

Lemma lookups_during_reloads_witness :
  Forall (fun c => is_call c = true) reload_threads
  /\ exists t,
      nth_error (snd (run IPv4.newHostlist IPv4.IP_String IPv4.ReverseAddr
                          reload_schedule
                          (race loaded_instance reload_threads))) 2
      = Some t
      /\ returned t = true
      /\ exists T,
          In T (hosts loaded_instance
                :: loaded_tables IPv4.newHostlist loaded_instance
                                 reload_threads)
          /\ Some t = answer_on IPv4.IP_String IPv4.ReverseAddr
                                loaded_instance T
                                (FH_call "foo.example.com.").
Proof.
  assert (Hc : Forall (fun c => is_call c = true) reload_threads)
    by (repeat constructor).
  split; [exact Hc|].
  eexists.
  assert (Ht : nth_error
                 (snd (run IPv4.newHostlist IPv4.IP_String IPv4.ReverseAddr
                           reload_schedule
                           (race loaded_instance reload_threads))) 2
               = Some _) by (vm_compute; reflexivity).
  split; [exact Ht|]. split; [reflexivity|].
  exact (lookups_during_reloads
           IPv4.newHostlist IPv4.IP_String IPv4.ReverseAddr
           loaded_instance reload_threads reload_schedule 2
           (FH_call "foo.example.com.") _ Hc eq_refl Ht eq_refl).
Defined.

Lemma mutex_is_balanced_witness :
  Forall (fun c => is_call c = true) reload_threads
  /\ rcount (fst (run IPv4.newHostlist IPv4.IP_String IPv4.ReverseAddr
                      [2; 2; 3]
                      (race loaded_instance reload_threads)))
     = count in_read_section
             (snd (run IPv4.newHostlist IPv4.IP_String IPv4.ReverseAddr
                       [2; 2; 3]
                       (race loaded_instance reload_threads))).
Proof.
  assert (Hc : Forall (fun c => is_call c = true) reload_threads)
    by (repeat constructor).
  split; [exact Hc|].
  exact (proj1 (mutex_is_balanced
                  IPv4.newHostlist IPv4.IP_String IPv4.ReverseAddr
                  loaded_instance reload_threads [2; 2; 3] Hc)).
Defined.

Lemma race_never_deadlocks_witness :
  Forall (fun c => is_call c = true) reload_threads
  /\ In (LD_Lock changed_file)
        (snd (run IPv4.newHostlist IPv4.IP_String IPv4.ReverseAddr
                  [2; 2; 0; 0]
                  (race loaded_instance reload_threads)))
  /\ exists i u next,
      nth_error (snd (run IPv4.newHostlist IPv4.IP_String IPv4.ReverseAddr
                          [2; 2; 0; 0]
                          (race loaded_instance reload_threads))) i
      = Some u
      /\ thread_step IPv4.newHostlist IPv4.IP_String IPv4.ReverseAddr
                     (fst (run IPv4.newHostlist IPv4.IP_String
                               IPv4.ReverseAddr [2; 2; 0; 0]
                               (race loaded_instance reload_threads))) u
         = Some next.
Proof.
  assert (Hc : Forall (fun c => is_call c = true) reload_threads)
    by (repeat constructor).
  assert (Hin : In (LD_Lock changed_file)
                   (snd (run IPv4.newHostlist IPv4.IP_String
                             IPv4.ReverseAddr [2; 2; 0; 0]
                             (race loaded_instance reload_threads))))
    by (left; reflexivity).
  split; [exact Hc|]. split; [exact Hin|].
  exact (race_never_deadlocks
           IPv4.newHostlist IPv4.IP_String IPv4.ReverseAddr
           loaded_instance reload_threads [2; 2; 0; 0]
           (LD_Lock changed_file) Hc Hin eq_refl).
Defined.

Lemma FindHosts_runs_alone_witness :
  run IPv4.newHostlist IPv4.IP_String IPv4.ReverseAddr (repeat 2 7)
      (race loaded_instance reload_threads)
  = (mkShared loaded_instance 0 false,
     set_nth 2 (FH_ret [ip_10_0_0_5] None) reload_threads).
Proof.
  exact (FindHosts_runs_alone
           IPv4.newHostlist IPv4.IP_String IPv4.ReverseAddr
           (mkShared loaded_instance 0 false) reload_threads 2
           "foo.example.com." 7 eq_refl eq_refl (le_n 7)).
Defined.

Lemma FindReverse_runs_alone_witness :
  run IPv4.newHostlist IPv4.IP_String IPv4.ReverseAddr (repeat 3 6)
      (race loaded_instance reload_threads)
  = (mkShared loaded_instance 0 false,
     set_nth 3 (FR_ret "foo.example.com." None) reload_threads).
Proof.
  exact (FindReverse_runs_alone
           IPv4.newHostlist IPv4.IP_String IPv4.ReverseAddr
           (mkShared loaded_instance 0 false) reload_threads 3
           "5.0.0.10.in-addr.arpa." 6 eq_refl eq_refl (le_n 6)).
Defined.

Lemma loadHostEntries_runs_alone_witness :
  run IPv4.newHostlist IPv4.IP_String IPv4.ReverseAddr (repeat 0 4)
      (race loaded_instance reload_threads)
  = (mkShared (set_hosts loaded_instance
                         [mkHostname "foo.example.com" ip_10_0_0_9]) 0 false,
     set_nth 0 (LD_ret None) reload_threads).
Proof.
  exact (loadHostEntries_runs_alone
           IPv4.newHostlist IPv4.IP_String IPv4.ReverseAddr
           (mkShared loaded_instance 0 false) reload_threads 0
           changed_world 4 eq_refl eq_refl eq_refl (le_n 4)).
Defined.
